(** * Jobly: partial-update SQL generation and filter-query construction

    A shallow embedding of [helpers/sql.js] ([sqlForPartialUpdate]) and of
    the data-access classes [Job] and [Company] ([models/job.js],
    [models/company.js]), with the properties the specification states
    about them.

    Modelling conventions.
    - JavaScript scalars are the type [JsVal].  Numbers are the
      integer-valued ones (a [Z]) plus [NaN], in the range where JavaScript
      prints a number in plain decimal notation; fractional numbers are not
      represented.
    - The update mapping [dataToUpdate] is the list of its own enumerable
      properties in the order [Object.keys] / [Object.values] enumerate
      them; [own_properties] computes that list from the properties as they
      were written: array-index keys first, in ascending numeric order,
      then the other keys in the order of their creation.
    - The translation table [jsToSql] is only ever read by key, so its own
      properties are a finite map from property names to values.  A key it
      does not own is looked up in [Object.prototype], as for any object
      literal, and reads as [undefined] only when that has no such member
      either.
    - [db.query] is an external collaborator: a class [Database] gives its
      behaviour as a state-passing function.  Every call is also recorded
      in a trace, so that "no query was issued" and "the check ran before
      the insert" can be stated.
    - The handlers of [routes/users.js] are embedded as they run behind
      their middleware: [res.locals.user] is the object the authentication
      middleware left there.  The [User] model, [createToken] and
      [jsonschema.validate] are collaborators too (class [Collaborators]),
      with a record of the model calls made. *)

From stdpp Require Import base strings list sorting gmap pretty.
From Stdlib Require Import Ascii ZArith Lia.


(** ** JavaScript values *)

Inductive JsVal : Type :=
  | JUndefined
  | JNull
  | JBool (b : bool)
  | JNum (n : Z)
  | JNaN
  | JStr (s : string).

#[global] Instance JsVal_eq_dec : EqDecision JsVal.
Proof. solve_decision. Defined.

(** ToBoolean: what [if (v)], [v ? a : b], [!v], [v || w] test. *)
Definition truthy (v : JsVal) : bool :=
  match v with
  | JUndefined | JNull | JNaN => false
  | JBool b => b
  | JNum n => negb (n =? 0)%Z
  | JStr s => negb (String.eqb s "")
  end.

(** ToString, as performed by [${v}] inside a template literal. *)
Definition ToString (v : JsVal) : string :=
  match v with
  | JUndefined => "undefined"
  | JNull => "null"
  | JBool true => "true"
  | JBool false => "false"
  | JNum n => pretty n
  | JNaN => "NaN"
  | JStr s => s
  end.

(** [a || b] *)
Definition js_or (a b : JsVal) : JsVal := if truthy a then a else b.

(** [a && b] *)
Definition js_and (a b : JsVal) : JsVal := if truthy a then b else a.

(** [a === b]: same type and same value; [NaN] equals nothing. *)
Definition js_strict_eq (a b : JsVal) : bool :=
  match a, b with
  | JUndefined, JUndefined => true
  | JNull, JNull => true
  | JBool x, JBool y => Bool.eqb x y
  | JNum x, JNum y => (x =? y)%Z
  | JStr x, JStr y => String.eqb x y
  | _, _ => false
  end.

(** StringToNumber, for the strings whose value [JNum] can hold: after
    white space is trimmed, the empty string is 0 and an optionally signed
    run of decimal digits is its value.  Every other string reads as [NaN]
    ([None]) here; the literal forms JavaScript also accepts (fraction,
    exponent, radix prefix, [Infinity]) are outside the model. *)
Fixpoint read_digits (s : string) (acc : option N) : option N :=
  match s with
  | String c r =>
      match Ascii.is_nat c with
      | Some d => read_digits r (Some (10 * default 0%N acc + N.of_nat d)%N)
      | None => acc
      end
  | EmptyString => acc
  end.

Fixpoint all_digits (s : string) : bool :=
  match s with
  | String c r => bool_decide (is_Some (Ascii.is_nat c)) && all_digits r
  | EmptyString => true
  end.

Definition digits_to_Z (s : string) : option Z :=
  if all_digits s then Z.of_N <$> read_digits s None else None.

Fixpoint ltrim (s : string) : string :=
  match s with
  | String c r => if Ascii.is_space c then ltrim r else s
  | EmptyString => EmptyString
  end.

Definition trim (s : string) : string :=
  String.rev (ltrim (String.rev (ltrim s))).

Definition StringToNumber (s : string) : option Z :=
  match trim s with
  | EmptyString => Some 0%Z
  | String "-"%char r => Z.opp <$> digits_to_Z r
  | String "+"%char r => digits_to_Z r
  | t => digits_to_Z t
  end.

(** ToNumber; [None] is [NaN]. *)
Definition ToNumber (v : JsVal) : option Z :=
  match v with
  | JUndefined | JNaN => None
  | JNull => Some 0%Z
  | JBool b => Some (if b then 1 else 0)%Z
  | JNum n => Some n
  | JStr s => StringToNumber s
  end.

(** [a < b]: two strings compare by code units, everything else is
    compared as numbers, and a comparison with [NaN] is false. *)
Definition js_lt (a b : JsVal) : bool :=
  match a, b with
  | JStr x, JStr y => String.ltb x y
  | _, _ =>
      match ToNumber a, ToNumber b with
      | Some x, Some y => (x <? y)%Z
      | _, _ => false
      end
  end.

(** [a > b] *)
Definition js_gt (a b : JsVal) : bool := js_lt b a.

(** ** Errors *)

Inductive JsError : Type :=
  | BadRequestError (message : string)
  | NotFoundError (message : string)
  | OtherError (message : string).

Inductive Result (A : Type) : Type :=
  | Return (a : A)
  | Throw (e : JsError).
Arguments Return {A} a.
Arguments Throw {A} e.

(** ** Objects *)

(** An object whose property order matters: its own enumerable properties in
    enumeration order. *)
Abbreviation JsObject := (list (string * JsVal)).

Definition Object_keys (o : JsObject) : list string := o.*1.
Definition Object_values (o : JsObject) : list JsVal := o.*2.

(** A key is an array index when it is the canonical decimal numeral of an
    integer below [2^32 - 1]. *)
Definition array_index (key : string) : option N :=
  match key with
  | EmptyString => None
  | _ =>
      if all_digits key then
        match read_digits key None with
        | Some n =>
            if String.eqb (pretty n) key && (n <? 4294967295)%N then Some n else None
        | None => None
        end
      else None
  end.

(** [o[key] = v] on the properties in creation order: an existing key keeps
    its place and takes the new value, a new key goes last. *)
Fixpoint assign (key : string) (v : JsVal) (o : list (string * JsVal))
  : list (string * JsVal) :=
  match o with
  | [] => [(key, v)]
  | (k, w) :: rest =>
      if String.eqb k key then (k, v) :: rest else (k, w) :: assign key v rest
  end.

(** The properties of an object in creation order, from the members as they
    are written: the members of the JSON text that [JSON.parse] makes a
    request body of, or of an object literal. *)
Definition created (written : list (string * JsVal)) : list (string * JsVal) :=
  foldl (λ o kv, assign kv.1 kv.2 o) [] written.

(** The own properties in the order [Object.keys], [Object.values] and
    [Object.entries] go through them: the array-index keys in ascending
    numeric order ([index_le]), then the other keys in creation order. *)
Definition index_le (a b : N * (string * JsVal)) : Prop := (a.1 ≤ b.1)%N.

#[global] Instance index_le_dec : RelDecision index_le :=
  λ a b, decide (a.1 ≤ b.1)%N.

Definition own_properties (written : list (string * JsVal)) : JsObject :=
  (merge_sort index_le
     (omap (λ kv, (λ n, (n, kv)) <$> array_index kv.1) (created written))).*2
  ++ filter (λ kv, array_index kv.1 = None) (created written).

(** The members of [Object.prototype], which every object literal inherits,
    each with the text a template literal prints for it: the source text of
    a native function, and for [__proto__] the text of the prototype object
    itself. *)
Definition native (name : string) : string :=
  "function " +:+ name +:+ "() { [native code] }".

Definition Object_prototype : list (string * string) :=
  [ ("constructor", native "Object");
    ("__defineGetter__", native "__defineGetter__");
    ("__defineSetter__", native "__defineSetter__");
    ("hasOwnProperty", native "hasOwnProperty");
    ("__lookupGetter__", native "__lookupGetter__");
    ("__lookupSetter__", native "__lookupSetter__");
    ("isPrototypeOf", native "isPrototypeOf");
    ("propertyIsEnumerable", native "propertyIsEnumerable");
    ("toString", native "toString");
    ("valueOf", native "valueOf");
    ("__proto__", "[object Object]");
    ("toLocaleString", native "toLocaleString") ].

Fixpoint member (key : string) (members : list (string * string)) : option string :=
  match members with
  | [] => None
  | (k, text) :: rest => if String.eqb k key then Some text else member key rest
  end.

Definition inherited (key : string) : option string := member key Object_prototype.

(** What [table[key]] finds: an own property of the table, or a member of
    [Object.prototype] (a function or an object, hence truthy), or
    [undefined]. *)
Inductive Property : Type :=
  | Own (v : JsVal)
  | Inherited (text : string).

(** [table[key]] on a lookup table. *)
Definition prop (table : gmap string JsVal) (key : string) : Property :=
  match table !! key with
  | Some v => Own v
  | None =>
      match inherited key with
      | Some text => Inherited text
      | None => Own JUndefined
      end
  end.

(** [`${p || colName}`]: the property when it is truthy, or else the key, as
    a template literal prints it. *)
Definition or_colName (p : Property) (colName : string) : string :=
  match p with
  | Own v => ToString (js_or v (JStr colName))
  | Inherited text => text
  end.

(** The double-quote character, as a one-character string. *)
Definition dquote : string := String "034"%char EmptyString.
(** The newline character of a multi-line template literal. *)
Definition nl : string := String "010"%char EmptyString.

(** [arr.join(sep)] *)
Definition join (sep : string) (arr : list string) : string := String.concat sep arr.

(** ** helpers/sql.js *)

Record PartialUpdate : Type := { setCols : string; values : list JsVal }.

Definition sqlForPartialUpdate (dataToUpdate : JsObject) (jsToSql : gmap string JsVal)
  : Result PartialUpdate :=
  let keys := Object_keys dataToUpdate in
  if decide (length keys = 0) then Throw (BadRequestError "No data")
  else
    let cols :=
      imap (λ idx colName,
              dquote +:+ or_colName (prop jsToSql colName) colName
                     +:+ dquote +:+ "=$" +:+ pretty (idx + 1))
           keys in
    Return {| setCols := join ", " cols; values := Object_values dataToUpdate |}.

(** ** The database collaborator *)

(** A row of a result set, as the driver hands it over. *)
Abbreviation Row := (list (string * JsVal)).

Record QueryResult : Type := { rows : list Row }.

(** [db.query(sql, values)]: the answer and the next database state.  The
    call may fail, which the driver reports by throwing. *)
Class Database (D : Type) : Type :=
  db_query : string → list JsVal → D → Result QueryResult * D.

(** What a call was made with. *)
Abbreviation Call := (string * list JsVal)%type.

Record World (D : Type) : Type := { db : D; trace : list Call }.
Arguments db {D} w.
Arguments trace {D} w.

(** An [async] function body: sequential awaits over the database, which
    either returns or throws. *)
Definition Async (D A : Type) : Type := World D → Result A * World D.

Definition ret {D A} (a : A) : Async D A := λ w, (Return a, w).
Definition throw {D A} (e : JsError) : Async D A := λ w, (Throw e, w).
Definition bind {D A B} (m : Async D A) (k : A → Async D B) : Async D B :=
  λ w, match m w with
       | (Return a, w') => k a w'
       | (Throw e, w') => (Throw e, w')
       end.
Definition lift {D A} (r : Result A) : Async D A := λ w, (r, w).

Definition query `{Database D} (sql : string) (vals : list JsVal) : Async D QueryResult :=
  λ w, let '(r, d) := db_query sql vals (db w) in
       (r, {| db := d; trace := trace w ++ [(sql, vals)] |}).

Declare Scope async_scope.
Delimit Scope async_scope with async.
Notation "x <- m ;; k" := (bind m (λ x, k))
  (at level 100, m at next level, right associativity) : async_scope.

(** The statement a filter query is built as: [query] and [values]. *)
Abbreviation Stmt := (string * list JsVal)%type.

(** The lines of a multi-line template literal. *)
Definition lines (l : list string) : string := String.concat nl l.

(** ** models/job.js *)

Module Job.
Local Open Scope async_scope.

Definition base : string :=
  lines [
    "";
    "    SELECT ";
    "    id,";
    "    title, ";
    "    salary, ";
    "    equity, ";
    "    company_handle AS " +:+ dquote +:+ "companyHandle" +:+ dquote;
    "     FROM jobs" ].

(** [if (title) { ... }] *)
Definition title_filter (title : JsVal) (st : Stmt) : Stmt :=
  let '(query, values) := st in
  if truthy title then
    (query +:+ lines [""; "        WHERE title ILIKE $1"],
     values ++ [JStr ("%" +:+ ToString title +:+ "%")])
  else st.

(** [if (minSalary) { ... }] *)
Definition minSalary_filter (title minSalary : JsVal) (st : Stmt) : Stmt :=
  let '(query, values) := st in
  if truthy minSalary then
    (query +:+ lines [""; "        " +:+ (if truthy title then "AND" else "WHERE")
                                   +:+ " salary >= $" +:+ pretty (length values + 1)],
     values ++ [minSalary])
  else st.

(** [if (hasEquity === "true" || hasEquity === true) { ... }
    else if (hasEquity === 'false' || hasEquity === false) { ... }] *)
Definition hasEquity_filter (title minSalary hasEquity : JsVal) (st : Stmt) : Stmt :=
  let '(query, values) := st in
  if js_strict_eq hasEquity (JStr "true") || js_strict_eq hasEquity (JBool true) then
    (query +:+ lines [""; "        " +:+ (if truthy (js_or title minSalary)
                                          then "AND" else "WHERE") +:+ " equity > 0"],
     values)
  else if js_strict_eq hasEquity (JStr "false") || js_strict_eq hasEquity (JBool false) then
    (query +:+ lines [""; "        " +:+ (if truthy (js_or title minSalary)
                                          then "AND" else "WHERE") +:+ " equity = 0"],
     values)
  else st.

Definition order_by : string := lines [""; "      ORDER BY title"].

(** The statement [findByCriteria] hands to [db.query]. *)
Definition findByCriteria_sql (title minSalary hasEquity : JsVal) : Stmt :=
  let st := (base, []) in
  let st := title_filter title st in
  let st := minSalary_filter title minSalary st in
  let st := hasEquity_filter title minSalary hasEquity st in
  (st.1 +:+ order_by, st.2).

Definition findByCriteria `{Database D} (title minSalary hasEquity : JsVal)
  : Async D (list Row) :=
  jobsRes <- query (findByCriteria_sql title minSalary hasEquity).1
                   (findByCriteria_sql title minSalary hasEquity).2 ;;
  ret (rows jobsRes).

Definition get_sql : string :=
  lines [
    "SELECT ";
    "          id,";
    "          title, ";
    "          salary, ";
    "          equity, ";
    "          company_handle AS " +:+ dquote +:+ "companyHandle" +:+ dquote;
    "           FROM jobs";
    "           WHERE id = $1" ].

Definition get `{Database D} (id : JsVal) : Async D Row :=
  jobRes <- query get_sql [id] ;;
  match rows jobRes !! 0 with
  | None => throw (NotFoundError ("No job with an id of " +:+ ToString id))
  | Some job => ret job
  end.

Definition update_sql (setCols handleVarIdx : string) : string :=
  lines [
    "UPDATE jobs ";
    "                      SET " +:+ setCols +:+ " ";
    "                      WHERE id = " +:+ handleVarIdx +:+ " ";
    "                      RETURNING id, ";
    "                      title, ";
    "                      salary, ";
    "                      equity, ";
    "                      company_handle AS " +:+ dquote +:+ "companyHandle" +:+ dquote ].

Definition update `{Database D} (id : JsVal) (data : JsObject) : Async D Row :=
  su <- lift (sqlForPartialUpdate data {["companyHandle" := JStr "company_handle"]}) ;;
  let handleVarIdx := "$" +:+ pretty (length (values su) + 1) in
  let querySql := update_sql (setCols su) handleVarIdx in
  result <- query querySql (values su ++ [id]) ;;
  match rows result !! 0 with
  | None => throw (NotFoundError ("No job with id: " +:+ ToString id))
  | Some job => ret job
  end.

Definition remove_sql : string :=
  lines [
    "DELETE";
    "           FROM jobs";
    "           WHERE id = $1";
    "           RETURNING id" ].

Definition remove `{Database D} (id : JsVal) : Async D Row :=
  result <- query remove_sql [id] ;;
  match rows result !! 0 with
  | None => throw (NotFoundError "No job found")
  | Some deletedId => ret deletedId
  end.
(** *** The methods beside the filter query *)

Definition create_sql : string :=
  lines [
    "INSERT INTO jobs";
    "           (title, salary, equity, company_handle)";
    "           VALUES ($1, $2, $3, $4)";
    "           RETURNING ";
    "           id,";
    "           title, ";
    "           salary, ";
    "           equity, ";
    "           company_handle AS " +:+ dquote +:+ "companyHandle" +:+ dquote ].

(** [create] returns [result.rows[0]], which is [undefined] ([None]) when
    the insert hands back no row. *)
Definition create `{Database D} (title salary equity companyHandle : JsVal)
  : Async D (option Row) :=
  result <- query create_sql [title; salary; equity; companyHandle] ;;
  let job := rows result !! 0 in
  ret job.

Definition findAll_sql : string :=
  lines [
    "SELECT ";
    "          id,";
    "          title, ";
    "          salary, ";
    "          equity, ";
    "          company_handle AS " +:+ dquote +:+ "companyHandle" +:+ dquote;
    "           FROM jobs";
    "           ORDER BY title" ].

Definition findAll `{Database D} : Async D (list Row) :=
  jobsRes <- query findAll_sql [] ;;
  ret (rows jobsRes).

Definition findAllByCompany_sql : string :=
  lines [
    "SELECT ";
    "          id,";
    "          title, ";
    "          salary, ";
    "          equity, ";
    "          company_handle AS " +:+ dquote +:+ "companyHandle" +:+ dquote;
    "           FROM jobs";
    "           WHERE company_handle = $1";
    "           ORDER BY title" ].

(** [findAllByCompany] returns [null] ([None]) for a falsy [jobsRes]; the
    result object of a [db.query] that returned is an object, hence
    truthy. *)
Definition result_truthy (res : QueryResult) : bool := true.

Definition findAllByCompany `{Database D} (company_handle : JsVal)
  : Async D (option (list Row)) :=
  jobsRes <- query findAllByCompany_sql [company_handle] ;;
  if negb (result_truthy jobsRes) then ret None
  else ret (Some (rows jobsRes)).
End Job.

(** ** models/company.js *)

Module Company.
Local Open Scope async_scope.

Definition duplicateCheck_sql : string :=
  lines [
    "SELECT handle";
    "           FROM companies";
    "           WHERE handle = $1" ].

Definition insert_sql : string :=
  lines [
    "INSERT INTO companies";
    "           (handle, name, description, num_employees, logo_url)";
    "           VALUES ($1, $2, $3, $4, $5)";
    "           RETURNING handle, name, description, num_employees AS "
      +:+ dquote +:+ "numEmployees" +:+ dquote +:+ ", logo_url AS "
      +:+ dquote +:+ "logoUrl" +:+ dquote ].

(** [create] returns [result.rows[0]], which is [undefined] ([None]) when
    the insert hands back no row. *)
Definition create `{Database D} (handle name description numEmployees logoUrl : JsVal)
  : Async D (option Row) :=
  duplicateCheck <- query duplicateCheck_sql [handle] ;;
  match rows duplicateCheck !! 0 with
  | Some _ => throw (BadRequestError ("Duplicate company: " +:+ ToString handle))
  | None =>
      result <- query insert_sql
        [handle; name; description; numEmployees; logoUrl] ;;
      let company := rows result !! 0 in
      ret company
  end.

Definition base : string :=
  lines [
    "";
    "      SELECT handle,";
    "             name,";
    "             description,";
    "             num_employees AS " +:+ dquote +:+ "numEmployees" +:+ dquote +:+ ",";
    "             logo_url AS " +:+ dquote +:+ "logoUrl" +:+ dquote;
    "      FROM companies" ].

(** [minEmployees && maxEmployees && minEmployees > maxEmployees] *)
Definition invalid_range (minEmployees maxEmployees : JsVal) : bool :=
  truthy (js_and (js_and minEmployees maxEmployees)
                 (JBool (js_gt minEmployees maxEmployees))).

(** [if (name) { ... }] *)
Definition name_filter (name : JsVal) (st : Stmt) : Stmt :=
  let '(query, values) := st in
  if truthy name then
    (query +:+ lines [""; "        WHERE name ILIKE $1"],
     values ++ [JStr ("%" +:+ ToString name +:+ "%")])
  else st.

(** [if (minEmployees) { ... }] *)
Definition minEmployees_filter (name minEmployees : JsVal) (st : Stmt) : Stmt :=
  let '(query, values) := st in
  if truthy minEmployees then
    (query +:+ lines [""; "        " +:+ (if truthy name then "AND" else "WHERE")
                                   +:+ " num_employees >= $" +:+ pretty (length values + 1)],
     values ++ [minEmployees])
  else st.

(** [if (maxEmployees) { ... }] *)
Definition maxEmployees_filter (name minEmployees maxEmployees : JsVal) (st : Stmt) : Stmt :=
  let '(query, values) := st in
  if truthy maxEmployees then
    (query +:+ lines [""; "        " +:+ (if truthy (js_or name minEmployees)
                                          then "AND" else "WHERE")
                                   +:+ " num_employees <= $" +:+ pretty (length values + 1)],
     values ++ [maxEmployees])
  else st.

Definition order_by : string := lines [""; "      ORDER BY name"].

(** The statement [findByCriteria] hands to [db.query], once the range
    check has passed. *)
Definition findByCriteria_sql (name minEmployees maxEmployees : JsVal) : Stmt :=
  let st := (base, []) in
  let st := name_filter name st in
  let st := minEmployees_filter name minEmployees st in
  let st := maxEmployees_filter name minEmployees maxEmployees st in
  (st.1 +:+ order_by, st.2).

Definition findByCriteria `{Database D} (name minEmployees maxEmployees : JsVal)
  : Async D (list Row) :=
  if invalid_range minEmployees maxEmployees then
    throw (BadRequestError "minEmployees cannot be greater than maxEmployees")
  else
    companiesRes <- query (findByCriteria_sql name minEmployees maxEmployees).1
                          (findByCriteria_sql name minEmployees maxEmployees).2 ;;
    ret (rows companiesRes).

Definition get_sql : string :=
  lines [
    "SELECT handle,";
    "                  name,";
    "                  description,";
    "                  num_employees AS " +:+ dquote +:+ "numEmployees" +:+ dquote +:+ ",";
    "                  logo_url AS " +:+ dquote +:+ "logoUrl" +:+ dquote;
    "           FROM companies";
    "           WHERE handle = $1" ].

Definition get `{Database D} (handle : JsVal) : Async D Row :=
  companyRes <- query get_sql [handle] ;;
  match rows companyRes !! 0 with
  | None => throw (NotFoundError ("No company: " +:+ ToString handle))
  | Some company => ret company
  end.

Definition update_sql (setCols handleVarIdx : string) : string :=
  lines [
    "UPDATE companies ";
    "                      SET " +:+ setCols +:+ " ";
    "                      WHERE handle = " +:+ handleVarIdx +:+ " ";
    "                      RETURNING handle, ";
    "                                name, ";
    "                                description, ";
    "                                num_employees AS " +:+ dquote +:+ "numEmployees"
      +:+ dquote +:+ ", ";
    "                                logo_url AS " +:+ dquote +:+ "logoUrl" +:+ dquote ].

Definition update `{Database D} (handle : JsVal) (data : JsObject) : Async D Row :=
  su <- lift (sqlForPartialUpdate data
                {["numEmployees" := JStr "num_employees";
                  "logoUrl" := JStr "logo_url"]}) ;;
  let handleVarIdx := "$" +:+ pretty (length (values su) + 1) in
  let querySql := update_sql (setCols su) handleVarIdx in
  result <- query querySql (values su ++ [handle]) ;;
  match rows result !! 0 with
  | None => throw (NotFoundError ("No company: " +:+ ToString handle))
  | Some company => ret company
  end.

Definition remove_sql : string :=
  lines [
    "DELETE";
    "           FROM companies";
    "           WHERE handle = $1";
    "           RETURNING handle" ].

Definition remove `{Database D} (handle : JsVal) : Async D unit :=
  result <- query remove_sql [handle] ;;
  match rows result !! 0 with
  | None => throw (NotFoundError ("No company: " +:+ ToString handle))
  | Some company => ret tt
  end.
(** *** The unfiltered listing *)

Definition findAll_sql : string :=
  lines [
    "SELECT handle,";
    "                  name,";
    "                  description,";
    "                  num_employees AS " +:+ dquote +:+ "numEmployees" +:+ dquote +:+ ",";
    "                  logo_url AS " +:+ dquote +:+ "logoUrl" +:+ dquote;
    "           FROM companies";
    "           ORDER BY name" ].

Definition findAll `{Database D} : Async D (list Row) :=
  companiesRes <- query findAll_sql [] ;;
  ret (rows companiesRes).
End Company.

(** ** routes/users.js *)

Module UsersRoutes.

(** What a handler can catch: the [BadRequestError] built from the list of
    validation messages, an [UnauthorizedError], or any other error, which
    the handlers only pass on. *)
Inductive Thrown : Type :=
  | ValidationErrors (errs : list string)
  | UnauthorizedError (message : string)
  | OtherThrown (e : JsError).

Inductive Outcome (A : Type) : Type :=
  | Done (a : A)
  | Failed (err : Thrown).
Arguments Done {A} a.
Arguments Failed {A} err.

(** The calls to the [User] model. *)
Inductive UserCall : Type :=
  | CallRegister (body : JsObject)
  | CallApply (username id : string)
  | CallFindAll
  | CallGet (username : string)
  | CallUpdate (username : string) (body : JsObject)
  | CallRemove (username : string).

(** The collaborators of the handlers: the [User] model, [createToken] and
    [jsonschema.validate] with the two schemas. *)
Inductive Schema : Type := userNewSchema | userUpdateSchema.

(** What [jsonschema.validate] hands back: [valid], and for [errors] the
    [stack] of each error, which is what the handlers keep of them. *)
Record Validation : Type := { valid : bool; errors : list string }.

(** [User.apply] answers with an object whose [appliedJobDetails] the
    handler tests for truthiness: [None] stands for a falsy one. *)
Class Collaborators (U : Type) : Type := {
  User_register : JsObject → U → Outcome JsObject * U;
  User_apply : string → string → U → Outcome (option JsObject) * U;
  User_findAll : U → Outcome (list JsObject) * U;
  User_get : string → U → Outcome JsObject * U;
  User_update : string → JsObject → U → Outcome JsObject * U;
  User_remove : string → U → Outcome unit * U;
  createToken : JsObject → string;
  jsonschema_validate : JsObject → Schema → Validation
}.

Record State (U : Type) : Type := { model : U; calls : list UserCall }.
Arguments model {U} s.
Arguments calls {U} s.

(** The body of a [try] block. *)
Definition Try (U A : Type) : Type := State U → Outcome A * State U.

Definition ok {U A} (a : A) : Try U A := λ s, (Done a, s).
Definition raise {U A} (err : Thrown) : Try U A := λ s, (Failed err, s).
Definition and_then {U A B} (m : Try U A) (k : A → Try U B) : Try U B :=
  λ s, match m s with
       | (Done a, s') => k a s'
       | (Failed err, s') => (Failed err, s')
       end.

(** [await User.f(...)]: the model runs and the call is recorded. *)
Definition await {U A} (call : UserCall) (f : U → Outcome A * U) : Try U A :=
  λ s, let '(r, u) := f (model s) in
       (r, {| model := u; calls := calls s ++ [call] |}).

Declare Scope try_scope.
Delimit Scope try_scope with try.
Notation "x <-- m ;; k" := (and_then m (λ x, k))
  (at level 100, m at next level, right associativity) : try_scope.
Local Open Scope try_scope.

(** The JSON bodies the handlers send. *)
Inductive Body : Type :=
  | UserAndToken (user : JsObject) (token : string)
  | Users (users : list JsObject)
  | User (user : JsObject)
  | Deleted (deleted : string)
  | Applied (appliedJobDetails : JsObject)
  | Error (error : string).

(** What a handler ends with: [res.status(s).json(body)] ([res.json] sends
    status 200) or [next(err)]. *)
Inductive Response : Type :=
  | Json (status : nat) (body : Body)
  | Next (err : Thrown).

(** [try { ... } catch (err) { ... }] *)
Definition try_catch {U} (block : Try U Response) (handler : Thrown → Response)
  : State U → Response * State U :=
  λ s, match block s with
       | (Done r, s') => (r, s')
       | (Failed err, s') => (handler err, s')
       end.

(** [res.locals.user], as the authentication middleware left it. *)
Record LocalsUser : Type := { username : JsVal; isAdmin : JsVal }.

(** [res.locals.user.isAdmin || res.locals.user.username === req.params.username] *)
Definition isAdmin_or_self (user : LocalsUser) (params_username : string) : bool :=
  truthy (js_or (isAdmin user) (JBool (js_strict_eq (username user) (JStr params_username)))).

(** [if (err instanceof UnauthorizedError) return res.status(401).json({ error: err.message });
    return next(err);] *)
Definition catch_unauthorized (err : Thrown) : Response :=
  match err with
  | UnauthorizedError message => Json 401 (Error message)
  | _ => Next err
  end.

(** [if (!validator.valid) throw new BadRequestError(errs)] *)
Definition validate `{Collaborators U} (body : JsObject) (schema : Schema) : Try U unit :=
  let validator := jsonschema_validate body schema in
  if negb (valid validator) then raise (ValidationErrors (errors validator))
  else ok tt.

(** [POST /], behind [ensureLoggedIn] and [isAdmin]. *)
Definition post_root `{Collaborators U} (body : JsObject) : State U → Response * State U :=
  try_catch
    (_ <-- validate body userNewSchema ;;
     user <-- await (CallRegister body) (User_register body) ;;
     let token := createToken user in
     ok (Json 201 (UserAndToken user token)))
    Next.

(** [POST /:username/jobs/:id], behind [ensureLoggedIn]. *)
Definition post_username_jobs_id `{Collaborators U} (user : LocalsUser)
    (params_username params_id : string) : State U → Response * State U :=
  try_catch
    (if isAdmin_or_self user params_username then
       appliedJobDetails <-- await (CallApply params_username params_id)
                                   (User_apply params_username params_id) ;;
       match appliedJobDetails with
       | Some details => ok (Json 201 (Applied details))
       | None => ok (Json 404 (Error "Job not found or could not be applied"))
       end
     else ok (Json 403 (Error "Unauthorized to apply for this job")))
    catch_unauthorized.


(** [GET /:username], behind [ensureLoggedIn]. *)
Definition get_username `{Collaborators U} (user : LocalsUser) (params_username : string)
  : State U → Response * State U :=
  try_catch
    (if isAdmin_or_self user params_username then
       found <-- await (CallGet params_username) (User_get params_username) ;;
       ok (Json 200 (User found))
     else raise (UnauthorizedError "You are not authorized to view this profile"))
    catch_unauthorized.

(** [PATCH /:username], behind [ensureLoggedIn]. *)
Definition patch_username `{Collaborators U} (user : LocalsUser) (params_username : string)
    (body : JsObject) : State U → Response * State U :=
  try_catch
    (_ <-- validate body userUpdateSchema ;;
     if isAdmin_or_self user params_username then
       updated <-- await (CallUpdate params_username body)
                         (User_update params_username body) ;;
       ok (Json 200 (User updated))
     else raise (UnauthorizedError "You are not authorized to edit this profile"))
    catch_unauthorized.

(** [DELETE /:username], behind [ensureLoggedIn]. *)
Definition delete_username `{Collaborators U} (user : LocalsUser) (params_username : string)
  : State U → Response * State U :=
  try_catch
    (if isAdmin_or_self user params_username then
       _ <-- await (CallRemove params_username) (User_remove params_username) ;;
       ok (Json 200 (Deleted params_username))
     else raise (UnauthorizedError "You are not authorized to delete this profile"))
    catch_unauthorized.
End UsersRoutes.

(** ** Specification-side vocabulary *)

(** The translation a table offers for a key: the value the table holds
    for it, when the [||] of [sqlForPartialUpdate] lets it through, and for
    a key the table does not hold, what [Object.prototype] has under that
    name. *)
Definition translation (jsToSql : gmap string JsVal) (key : string) : option string :=
  match jsToSql !! key with
  | Some v => if truthy v then Some (ToString v) else None
  | None => inherited key
  end.

(** The column a key is written to: its translation, or the key itself. *)
Definition column (jsToSql : gmap string JsVal) (key : string) : string :=
  default key (translation jsToSql key).

(** The clause ["col"=$position]. *)
Definition set_clause (col : string) (position : nat) : string :=
  dquote +:+ col +:+ dquote +:+ "=$" +:+ pretty position.

(** The clauses of an update mapping: one per key, in the mapping's order,
    numbered from 1. *)
Definition set_clauses (dataToUpdate : JsObject) (jsToSql : gmap string JsVal) : list string :=
  imap (λ idx colName, set_clause (column jsToSql colName) (idx + 1))
       (Object_keys dataToUpdate).

(** The indices of the [$N] placeholders of a statement, left to right. *)
Definition read_nat (s : string) : option nat := N.to_nat <$> read_digits s None.

Fixpoint placeholders (s : string) : list nat :=
  match s with
  | String c r =>
      if Ascii.eqb c "$" then
        match read_nat r with
        | Some n => n :: placeholders r
        | None => placeholders r
        end
      else placeholders r
  | EmptyString => []
  end.

(** [s.includes(sub)] *)
Fixpoint includes (sub s : string) : bool :=
  match s with
  | String _ r => String.prefix sub s || includes sub r
  | EmptyString => String.prefix sub s
  end.

(** Specification side, after section 4.2 and the design notes: a filter
    rule says whether the filter is present, what its comparison is (given
    the next free placeholder index) and which bind value it consumes, if
    any. *)
Record Filter : Type :=
  { present : bool; comparison : nat → string; slot : option JsVal }.

(** Specification side: the filters are taken in their declared order; the
    first present one is introduced by WHERE and the later ones by AND; a
    placeholder is numbered by the count of bind values so far plus one. *)
Fixpoint compose_filters (first : bool) (fs : list Filter) (vals : list JsVal)
  : string * list JsVal :=
  match fs with
  | [] => (EmptyString, vals)
  | f :: fs' =>
      if present f then
        let '(q, vs) := compose_filters false fs' (vals ++ option_list (slot f)) in
        (nl +:+ "        " +:+ (if first then "WHERE" else "AND") +:+ " "
            +:+ comparison f (length vals + 1) +:+ q, vs)
      else compose_filters first fs' vals
  end.

(** Specification side: the tri-state equity flag. *)
Inductive Equity : Type := EquityAbsent | EquityPositive | EquityZero.

Definition equity_flag (hasEquity : JsVal) : Equity :=
  if bool_decide (hasEquity = JBool true ∨ hasEquity = JStr "true") then EquityPositive
  else if bool_decide (hasEquity = JBool false ∨ hasEquity = JStr "false") then EquityZero
  else EquityAbsent.

(** Specification side: the filters of the jobs listing, in declared order:
    text on title, minimum on salary, equity flag. *)
Definition job_filters (title minSalary hasEquity : JsVal) : list Filter :=
  [ {| present := truthy title;
       comparison := λ n, "title ILIKE $" +:+ pretty n;
       slot := Some (JStr ("%" +:+ ToString title +:+ "%")) |};
    {| present := truthy minSalary;
       comparison := λ n, "salary >= $" +:+ pretty n;
       slot := Some minSalary |};
    {| present := match equity_flag hasEquity with
                  | EquityAbsent => false
                  | _ => true
                  end;
       comparison := λ _, match equity_flag hasEquity with
                          | EquityZero => "equity = 0"
                          | _ => "equity > 0"
                          end;
       slot := None |} ].

(** Specification side: the filters of the companies listing, in declared
    order: text on name, minimum and maximum on employee count. *)
Definition company_filters (name minEmployees maxEmployees : JsVal) : list Filter :=
  [ {| present := truthy name;
       comparison := λ n, "name ILIKE $" +:+ pretty n;
       slot := Some (JStr ("%" +:+ ToString name +:+ "%")) |};
    {| present := truthy minEmployees;
       comparison := λ n, "num_employees >= $" +:+ pretty n;
       slot := Some minEmployees |};
    {| present := truthy maxEmployees;
       comparison := λ n, "num_employees <= $" +:+ pretty n;
       slot := Some maxEmployees |} ].

(** How many filters of a rule list are present. *)
Definition count_present (fs : list Filter) : nat :=
  length (filter (λ f, present f = true) fs).

(** The WHERE and AND keywords of a statement, left to right. *)
Fixpoint keywords (s : string) : list string :=
  match s with
  | String _ r =>
      if String.prefix "WHERE " s then "WHERE" :: keywords r
      else if String.prefix "AND " s then "AND" :: keywords r
      else keywords r
  | EmptyString => []
  end.

(** Specification side: one WHERE for the first present filter, then an AND
    for each later one. *)
Definition where_then_and (n : nat) : list string :=
  match n with
  | 0 => []
  | S k => "WHERE" :: replicate k "AND"
  end.

(** Specification side: the clause a filter adds, on a line of its own:
    WHERE or AND and then the condition. *)
Definition filter_clause (keyword condition : string) : string :=
  nl +:+ "        " +:+ keyword +:+ " " +:+ condition.

(** Specification side: a filter that consumes a bind value.  When it is
    provided, the step appends the clause that compares the column with the
    placeholder numbered by the count of values so far plus one, and pushes
    the value; that placeholder is the only one of the clause.  When it is
    not provided, the step changes nothing. *)
Definition value_step (step : Stmt → Stmt) (provided : bool) (comparison : string)
    (value : JsVal) (query : string) (vals : list JsVal) : Prop :=
  if provided then
    ∃ keyword,
      (keyword = "WHERE" ∨ keyword = "AND")
      ∧ step (query, vals)
        = (query +:+ filter_clause keyword
                       (comparison +:+ " $" +:+ pretty (length vals + 1)),
           vals ++ [value])
      ∧ placeholders (filter_clause keyword
                        (comparison +:+ " $" +:+ pretty (length vals + 1)))
        = [length vals + 1]
  else step (query, vals) = (query, vals).

(** Specification side: the equity filter.  For either reading of the flag
    the step appends a clause that compares [equity] with the literal 0 and
    leaves the values as they are; for an absent flag it changes nothing. *)
Definition literal_step (step : Stmt → Stmt) (flag : Equity) (query : string)
    (vals : list JsVal) : Prop :=
  match flag with
  | EquityPositive =>
      ∃ keyword, (keyword = "WHERE" ∨ keyword = "AND")
                 ∧ step (query, vals) = (query +:+ filter_clause keyword "equity > 0", vals)
  | EquityZero =>
      ∃ keyword, (keyword = "WHERE" ∨ keyword = "AND")
                 ∧ step (query, vals) = (query +:+ filter_clause keyword "equity = 0", vals)
  | EquityAbsent => step (query, vals) = (query, vals)
  end.

(** Specification side: the result of [sqlForPartialUpdate] as section 4.1
    words it: the keys in the order they were written, each with the
    table's entry for it, or with the key itself when the table has no
    entry. *)
Definition specified_update (written : list (string * JsVal)) (jsToSql : gmap string JsVal)
  : PartialUpdate :=
  {| setCols :=
       join ", " (imap (λ idx kv,
                          set_clause (default kv.1 (ToString <$> jsToSql !! kv.1))
                                     (idx + 1))
                       written);
     values := written.*2 |}.

(** A string that does not start with a digit ends the number before it. *)
Definition no_leading_digit (s : string) : bool :=
  match s with
  | String c _ => bool_decide (Ascii.is_nat c = None)
  | EmptyString => true
  end.

(** The result set of a statement that matched nothing. *)
Definition no_rows : QueryResult := {| rows := [] |}.

(** A run of a method adds exactly [n] calls to the trace, after the calls
    that were there. *)
Definition calls_exactly {D A} (m : Async D A) (w : World D) (n : nat) : Prop :=
  ∃ calls, trace (m w).2 = trace w ++ calls ∧ length calls = n.

(** What the database answers to a statement in a given world. *)
Definition answer `{Database D} (sql : string) (vals : list JsVal) (w : World D)
  : Result QueryResult := (db_query sql vals (db w)).1.

Definition result_map {A B} (f : A → B) (r : Result A) : Result B :=
  match r with
  | Return a => Return (f a)
  | Throw e => Throw e
  end.

(** ** A scripted database, for concrete runs

    It answers the calls in order from a list of prepared answers, and with
    an empty result set once the list is used up. *)
Abbreviation Script := (list (Result QueryResult)).

#[global] Instance scripted : Database Script :=
  λ _ _ d, match d with
           | [] => (Return {| rows := [] |}, [])
           | r :: d' => (r, d')
           end.

Definition start (d : Script) : World Script := {| db := d; trace := [] |}.

(** An in-memory [User] model, for concrete runs: users by name. *)
#[global] Instance memory_model : UsersRoutes.Collaborators (gmap string JsObject) := {|
  UsersRoutes.User_register := λ body users,
    match body with
    | (_, JStr name) :: _ =>
        match users !! name with
        | None => (UsersRoutes.Done body, <[name := body]> users)
        | Some _ =>
            (UsersRoutes.Failed (UsersRoutes.OtherThrown (BadRequestError ("Duplicate username: " +:+ name))), users)
        end
    | _ => (UsersRoutes.Failed (UsersRoutes.OtherThrown (OtherError "null value in column username")), users)
    end;
  UsersRoutes.User_apply := λ name id users,
    match users !! name with
    | Some _ => (UsersRoutes.Done (Some [("jobId", JStr id)]), users)
    | None => (UsersRoutes.Failed (UsersRoutes.OtherThrown (NotFoundError ("No user: " +:+ name))), users)
    end;
  UsersRoutes.User_findAll := λ users, (UsersRoutes.Done (map_to_list users).*2, users);
  UsersRoutes.User_get := λ name users,
    match users !! name with
    | Some u => (UsersRoutes.Done u, users)
    | None => (UsersRoutes.Failed (UsersRoutes.OtherThrown (NotFoundError ("No user: " +:+ name))), users)
    end;
  UsersRoutes.User_update := λ name body users,
    match users !! name with
    | Some u => (UsersRoutes.Done (body ++ u), <[name := body ++ u]> users)
    | None => (UsersRoutes.Failed (UsersRoutes.OtherThrown (NotFoundError ("No user: " +:+ name))), users)
    end;
  UsersRoutes.User_remove := λ name users,
    match users !! name with
    | Some _ => (UsersRoutes.Done tt, delete name users)
    | None => (UsersRoutes.Failed (UsersRoutes.OtherThrown (NotFoundError ("No user: " +:+ name))), users)
    end;
  UsersRoutes.createToken := λ u, "token";
  UsersRoutes.jsonschema_validate := λ body _,
    {| UsersRoutes.valid := bool_decide (body ≠ []);
       UsersRoutes.errors := if bool_decide (body ≠ []) then [] else ["instance is empty"] |}
|}.

Definition u1 : UsersRoutes.LocalsUser :=
  {| UsersRoutes.username := JStr "u1"; UsersRoutes.isAdmin := JBool false |}.
Definition admin : UsersRoutes.LocalsUser :=
  {| UsersRoutes.username := JStr "u2"; UsersRoutes.isAdmin := JBool true |}.
Definition two_users : UsersRoutes.State (gmap string JsObject) :=
  {| UsersRoutes.model := {["u1" := [("username", JStr "u1")]; "u2" := [("username", JStr "u2")]]};
     UsersRoutes.calls := [] |}.



(** * Properties *)

(** ** Strings *)

Lemma app_String (c : ascii) (s t : string) : String c s +:+ t = String c (s +:+ t).
Proof. reflexivity. Qed.

Lemma string_app_assoc (s t u : string) : (s +:+ t) +:+ u = s +:+ (t +:+ u).
Proof. induction s as [| c s IH]; [reflexivity |]. rewrite !app_String, IH. reflexivity. Qed.

Lemma string_app_nil_r (s : string) : s +:+ "" = s.
Proof. induction s as [| c s IH]; [reflexivity |]. rewrite app_String, IH. reflexivity. Qed.

Lemma includes_cons (sub : string) (c : ascii) (s : string) :
  includes sub (String c s) = false → includes sub s = false.
Proof. simpl. intros [_ H]%orb_false_iff. exact H. Qed.

(** ** Decimal numerals: what [pretty] prints, [read_nat] reads back *)

Lemma is_nat_pretty_N_char (d : N) :
  (d < 10)%N → Ascii.is_nat (pretty_N_char d) = Some (N.to_nat d).
Proof.
  intros Hd.
  assert (d = 0 ∨ d = 1 ∨ d = 2 ∨ d = 3 ∨ d = 4 ∨ d = 5 ∨ d = 6 ∨ d = 7 ∨ d = 8 ∨ d = 9)%N
    as Hc by lia.
  repeat (destruct Hc as [-> | Hc]; [reflexivity |]). subst. reflexivity.
Qed.

Lemma pretty_N_go_app (x : N) : ∀ s, pretty_N_go x s = pretty_N_go x "" +:+ s.
Proof.
  induction (N.lt_wf_0 x) as [x _ IH]. intros s.
  destruct (decide (x = 0)%N) as [-> | Hx].
  - rewrite !pretty_N_go_0. reflexivity.
  - rewrite (pretty_N_go_step x s), (pretty_N_go_step x "") by lia.
    assert (x `div` 10 < x)%N as Hlt by (apply N.div_lt; lia).
    rewrite (IH _ Hlt (String _ s)), (IH _ Hlt (String _ "")).
    rewrite string_app_assoc. reflexivity.
Qed.

Lemma read_digits_pretty_go (x : N) : ∀ rest,
  (0 < x)%N → read_digits (pretty_N_go x "" +:+ rest) None = read_digits rest (Some x).
Proof.
  induction (N.lt_wf_0 x) as [x _ IH]. intros rest Hx.
  rewrite (pretty_N_go_step x "") by lia.
  rewrite pretty_N_go_app, string_app_assoc, app_String.
  change ("" +:+ rest) with rest.
  assert (x `mod` 10 < 10)%N as Hm by (apply N.mod_lt; lia).
  pose proof (N.div_mod x 10 ltac:(lia)) as Hdm.
  destruct (decide (x `div` 10 = 0)%N) as [Hz | Hnz].
  - rewrite Hz, pretty_N_go_0. change ("" +:+ ?s) with s. simpl.
    rewrite (is_nat_pretty_N_char _ Hm). do 2 f_equal.
    rewrite N2Nat.id. cbn [default from_option id]. lia.
  - rewrite IH; [| apply N.div_lt; lia | apply N.neq_0_lt_0; exact Hnz]. simpl.
    rewrite (is_nat_pretty_N_char _ Hm). do 2 f_equal.
    rewrite N2Nat.id. cbn [default from_option id]. lia.
Qed.

Lemma read_digits_stop (rest : string) (acc : option N) :
  no_leading_digit rest = true → read_digits rest acc = acc.
Proof.
  destruct rest as [| c r]; [reflexivity |]. simpl. intros H%bool_decide_eq_true.
  rewrite H. reflexivity.
Qed.

Lemma read_nat_pretty (n : nat) (rest : string) :
  no_leading_digit rest = true → read_nat (pretty n +:+ rest) = Some n.
Proof.
  intros Hrest. unfold read_nat, pretty, pretty_nat, pretty, pretty_N.
  case_decide as Hn.
  - change ("0" +:+ rest) with (String "0" rest). simpl.
    rewrite read_digits_stop by done. simpl. f_equal. lia.
  - rewrite read_digits_pretty_go by lia. rewrite read_digits_stop by done.
    simpl. f_equal. lia.
Qed.

Lemma all_digits_pretty_N_go (x : N) : ∀ s,
  all_digits s = true → all_digits (pretty_N_go x s) = true.
Proof.
  induction (N.lt_wf_0 x) as [x _ IH]. intros s Hs.
  destruct (decide (x = 0)%N) as [-> | Hx]; [rewrite pretty_N_go_0; exact Hs |].
  rewrite pretty_N_go_step by lia. apply IH; [apply N.div_lt; lia |].
  simpl. rewrite Hs, andb_true_r. apply bool_decide_eq_true.
  rewrite is_nat_pretty_N_char by (apply N.mod_lt; lia). eauto.
Qed.

Lemma all_digits_pretty (n : nat) : all_digits (pretty n) = true.
Proof.
  unfold pretty, pretty_nat, pretty, pretty_N. case_decide; [reflexivity |].
  apply all_digits_pretty_N_go. reflexivity.
Qed.

(** ** Placeholders *)

Lemma placeholders_digits (s : string) : all_digits s = true → placeholders s = [].
Proof.
  induction s as [| c s IH]; [reflexivity |]. simpl.
  intros [Hc Hs]%andb_true_iff. apply bool_decide_eq_true in Hc.
  destruct (Ascii.eqb_spec c "$") as [-> | _]; [destruct Hc; discriminate |].
  apply IH, Hs.
Qed.

Lemma placeholders_dollar_pretty (n : nat) : placeholders ("$" +:+ pretty n) = [n].
Proof.
  change ("$" +:+ pretty n) with (String "$" (pretty n)). simpl.
  rewrite <- (string_app_nil_r (pretty n)) at 1.
  rewrite read_nat_pretty by reflexivity.
  rewrite placeholders_digits by apply all_digits_pretty. reflexivity.
Qed.

Lemma placeholders_skip (pre rest : string) :
  includes "$" pre = false → placeholders (pre +:+ rest) = placeholders rest.
Proof.
  induction pre as [| c pre IH]; [reflexivity |].
  rewrite app_String. simpl placeholders.
  destruct (Ascii.eqb_spec c "$") as [Hc | _].
  - rewrite Hc. simpl. destruct pre; discriminate.
  - intros H. apply IH, (includes_cons _ _ _ H).
Qed.

(** The placeholder of a SET clause whose column name has no dollar sign is
    the clause's position. *)
Lemma set_clause_placeholder (col : string) (position : nat) :
  includes "$" col = false → placeholders (set_clause col position) = [position].
Proof.
  intros Hcol. unfold set_clause.
  change (dquote +:+ col +:+ dquote +:+ "=$" +:+ pretty position)
    with (String "034" (col +:+ (String "034" (String "=" ("$" +:+ pretty position))))).
  simpl placeholders. rewrite placeholders_skip by exact Hcol.
  simpl placeholders. apply placeholders_dollar_pretty.
Qed.

Lemma placeholders_digits_app (s rest : string) :
  all_digits s = true → placeholders (s +:+ rest) = placeholders rest.
Proof.
  induction s as [| c s IH]; [reflexivity |]. simpl all_digits.
  intros [Hc Hs]%andb_true_iff. apply bool_decide_eq_true in Hc.
  rewrite app_String. simpl placeholders.
  destruct (Ascii.eqb_spec c "$") as [-> | _]; [destruct Hc; discriminate |].
  apply IH, Hs.
Qed.

Lemma placeholders_dollar_pretty_then (n : nat) (rest : string) :
  no_leading_digit rest = true →
  placeholders ("$" +:+ pretty n +:+ rest) = n :: placeholders rest.
Proof.
  intros Hrest.
  change ("$" +:+ pretty n +:+ rest) with (String "$" (pretty n +:+ rest)).
  simpl placeholders. rewrite read_nat_pretty by exact Hrest.
  rewrite placeholders_digits_app by apply all_digits_pretty. reflexivity.
Qed.

Lemma placeholders_set_clause_then (col : string) (position : nat) (rest : string) :
  includes "$" col = false → no_leading_digit rest = true →
  placeholders (set_clause col position +:+ rest) = position :: placeholders rest.
Proof.
  intros Hcol Hrest. unfold set_clause. rewrite !string_app_assoc.
  rewrite (placeholders_skip dquote) by reflexivity.
  rewrite (placeholders_skip col) by exact Hcol.
  rewrite (placeholders_skip dquote) by reflexivity.
  change ("=$" +:+ pretty position +:+ rest)
    with ("=" +:+ ("$" +:+ pretty position +:+ rest)).
  rewrite (placeholders_skip "=") by reflexivity.
  apply placeholders_dollar_pretty_then, Hrest.
Qed.

Lemma join_cons_cons (sep x y : string) (l : list string) :
  join sep (x :: y :: l) = x +:+ sep +:+ join sep (y :: l).
Proof. reflexivity. Qed.

Lemma placeholders_join_clauses (col : string → string) (keys : list string) :
  ∀ (start : nat) (rest : string),
    Forall (λ k, includes "$" (col k) = false) keys →
    no_leading_digit rest = true →
    placeholders (join ", " (imap (λ idx k, set_clause (col k) (start + idx + 1)) keys)
                  +:+ rest)
    = seq (start + 1) (length keys) ++ placeholders rest.
Proof.
  induction keys as [| k ks IH]; intros start rest Hkeys Hrest; [reflexivity |].
  apply Forall_cons in Hkeys as [Hk Hks].
  rewrite imap_cons.
  rewrite (imap_ext _ (λ idx k', set_clause (col k') (S start + idx + 1)))
    by (intros; simpl; do 2 f_equal; lia).
  replace (start + 0 + 1) with (start + 1) by lia.
  destruct ks as [| k' ks'].
  - simpl imap. unfold join. simpl String.concat.
    rewrite placeholders_set_clause_then by assumption. reflexivity.
  - specialize (IH (S start) rest Hks Hrest).
    remember (imap (λ idx k'0, set_clause (col k'0) (S start + idx + 1)) (k' :: ks')) as tl
      eqn:Htl.
    destruct tl as [| y l]; [discriminate Htl |].
    rewrite join_cons_cons, !string_app_assoc.
    rewrite placeholders_set_clause_then by (assumption || reflexivity).
    rewrite (placeholders_skip ", ") by reflexivity.
    rewrite IH. simpl length. simpl seq.
    replace (S start + 1) with (S (start + 1)) by lia. reflexivity.
Qed.

(** ** Truthiness *)

Lemma truthy_js_or (a b : JsVal) : truthy (js_or a b) = truthy a || truthy b.
Proof. unfold js_or. destruct (truthy a) eqn:E; simpl; [exact E | reflexivity]. Qed.

Lemma truthy_js_and (a b : JsVal) : truthy (js_and a b) = truthy a && truthy b.
Proof. unfold js_and. destruct (truthy a) eqn:E; simpl; [reflexivity | exact E]. Qed.

Lemma strict_true_decide (h : JsVal) :
  js_strict_eq h (JStr "true") || js_strict_eq h (JBool true)
  = bool_decide (h = JBool true ∨ h = JStr "true").
Proof.
  destruct h as [| | [|] | n | | s]; try reflexivity. simpl. rewrite orb_false_r.
  destruct (String.eqb_spec s "true") as [-> | Hs]; [reflexivity |].
  symmetry. apply bool_decide_eq_false_2. intros [? | ?]; congruence.
Qed.

Lemma strict_false_decide (h : JsVal) :
  js_strict_eq h (JStr "false") || js_strict_eq h (JBool false)
  = bool_decide (h = JBool false ∨ h = JStr "false").
Proof.
  destruct h as [| | [|] | n | | s]; try reflexivity. simpl. rewrite orb_false_r.
  destruct (String.eqb_spec s "false") as [-> | Hs]; [reflexivity |].
  symmetry. apply bool_decide_eq_false_2. intros [? | ?]; congruence.
Qed.

Lemma strict_true_not_false (h : JsVal) :
  js_strict_eq h (JStr "true") || js_strict_eq h (JBool true) = true →
  js_strict_eq h (JStr "false") || js_strict_eq h (JBool false) = false.
Proof.
  rewrite strict_true_decide, strict_false_decide.
  intros [-> | ->]%bool_decide_eq_true; reflexivity.
Qed.

Lemma equity_flag_code (h : JsVal) :
  equity_flag h =
  if js_strict_eq h (JStr "true") || js_strict_eq h (JBool true) then EquityPositive
  else if js_strict_eq h (JStr "false") || js_strict_eq h (JBool false) then EquityZero
  else EquityAbsent.
Proof. rewrite strict_true_decide, strict_false_decide. reflexivity. Qed.

(** ** Objects: the order of enumeration *)

Lemma assign_nonempty (key : string) (v : JsVal) (o : list (string * JsVal)) :
  assign key v o ≠ [].
Proof. destruct o as [| [k w] rest]; simpl; [| destruct (String.eqb k key)]; discriminate. Qed.

Lemma created_snoc (written : list (string * JsVal)) (kv : string * JsVal) :
  created (written ++ [kv]) = assign kv.1 kv.2 (created written).
Proof. unfold created. rewrite foldl_app. reflexivity. Qed.

Lemma created_nonempty (written : list (string * JsVal)) :
  written ≠ [] → created written ≠ [].
Proof.
  destruct written as [| kv rest _] using rev_ind; [done |].
  intros _. rewrite created_snoc. apply assign_nonempty.
Qed.

(** A key that is not there yet goes last. *)
Lemma assign_fresh (key : string) (v : JsVal) (o : list (string * JsVal)) :
  key ∉ o.*1 → assign key v o = o ++ [(key, v)].
Proof.
  induction o as [| [k w] rest IH]; [reflexivity |]. simpl.
  intros Hnot. apply not_elem_of_cons in Hnot as [Hne Hrest].
  destruct (String.eqb_spec k key) as [-> | _]; [done |].
  rewrite IH by exact Hrest. reflexivity.
Qed.

(** Keys written once each are created in the order they are written. *)
Lemma created_NoDup (written : list (string * JsVal)) :
  NoDup written.*1 → created written = written.
Proof.
  induction written as [| [k v] rest IH] using rev_ind; [reflexivity |].
  rewrite fmap_app. intros [Hrest [Hfresh _]]%NoDup_app.
  rewrite created_snoc, IH by exact Hrest. simpl.
  apply assign_fresh. intros Hin. apply (Hfresh k Hin). simpl. left.
Qed.

Lemma index_split_Permutation (l : list (string * JsVal)) :
  (omap (λ kv, (λ n, (n, kv)) <$> array_index kv.1) l).*2
  ++ filter (λ kv, array_index kv.1 = None) l ≡ₚ l.
Proof.
  induction l as [| kv l IH]; [reflexivity |].
  rewrite filter_cons. simpl. case_decide as Hkv; rewrite Hkv || (destruct (array_index kv.1); [| done]); simpl.
  - rewrite <- Permutation_middle. f_equiv. exact IH.
  - f_equiv. exact IH.
Qed.

(** Enumeration reorders the properties; it neither drops nor adds one. *)
Lemma own_properties_Permutation (written : list (string * JsVal)) :
  own_properties written ≡ₚ created written.
Proof.
  unfold own_properties. rewrite merge_sort_Permutation. apply index_split_Permutation.
Qed.

Lemma own_properties_nonempty (written : list (string * JsVal)) :
  written ≠ [] → own_properties written ≠ [].
Proof.
  intros Hne Hnil. apply (created_nonempty _ Hne).
  apply Permutation_nil_r. rewrite <- Hnil. symmetry. apply own_properties_Permutation.
Qed.

Lemma no_index_omap (l : list (string * JsVal)) :
  Forall (λ kv, array_index kv.1 = None) l →
  omap (λ kv, (λ n, (n, kv)) <$> array_index kv.1) l = []
  ∧ filter (λ kv, array_index kv.1 = None) l = l.
Proof.
  induction 1 as [| kv l Hkv _ [IH1 IH2]]; [done |].
  rewrite filter_cons. simpl. rewrite decide_True by exact Hkv.
  rewrite Hkv, IH2. done.
Qed.

(** Without array-index keys and without a key written twice, the
    properties are enumerated in the order they were written. *)
Lemma own_properties_written (written : list (string * JsVal)) :
  NoDup written.*1 → Forall (λ kv, array_index kv.1 = None) written →
  own_properties written = written.
Proof.
  intros Hdup Hidx. unfold own_properties. rewrite created_NoDup by exact Hdup.
  destruct (no_index_omap _ Hidx) as [-> ->]. reflexivity.
Qed.

(** ** helpers/sql.js: [sqlForPartialUpdate] *)

Lemma column_code (jsToSql : gmap string JsVal) (key : string) :
  or_colName (prop jsToSql key) key = column jsToSql key.
Proof.
  unfold column, translation, prop, or_colName, js_or.
  destruct (jsToSql !! key) as [v |]; simpl.
  - destruct (truthy v); reflexivity.
  - destruct (inherited key); reflexivity.
Qed.

Lemma column_own (jsToSql : gmap string JsVal) (key : string) (v : JsVal) :
  jsToSql !! key = Some v → column jsToSql key = if truthy v then ToString v else key.
Proof. intros Hk. unfold column, translation. rewrite Hk. destruct (truthy v); reflexivity. Qed.

Lemma column_not_own (jsToSql : gmap string JsVal) (key : string) :
  jsToSql !! key = None → column jsToSql key = default key (inherited key).
Proof. intros Hk. unfold column, translation. rewrite Hk. reflexivity. Qed.

Lemma column_absent (jsToSql : gmap string JsVal) (key : string) :
  jsToSql !! key = None → inherited key = None → column jsToSql key = key.
Proof. intros Hk Hi. rewrite column_not_own, Hi by exact Hk. reflexivity. Qed.

Lemma column_translated (jsToSql : gmap string JsVal) (key : string) (v : JsVal) :
  jsToSql !! key = Some v → truthy v = true → column jsToSql key = ToString v.
Proof. intros Hk Hv. rewrite (column_own _ _ _ Hk), Hv. reflexivity. Qed.

Lemma column_falsy (jsToSql : gmap string JsVal) (key : string) (v : JsVal) :
  jsToSql !! key = Some v → truthy v = false → column jsToSql key = key.
Proof. intros Hk Hv. rewrite (column_own _ _ _ Hk), Hv. reflexivity. Qed.

Lemma column_delete (jsToSql : gmap string JsVal) (key k : string) :
  column jsToSql key = key → inherited key = None →
  column (delete key jsToSql) k = column jsToSql k.
Proof.
  intros Hcol Hi. destruct (decide (k = key)) as [-> | Hne].
  - rewrite Hcol. apply column_absent; [apply lookup_delete_eq | exact Hi].
  - unfold column, translation. rewrite lookup_delete_ne by congruence. reflexivity.
Qed.

Lemma inherited_dollar_free (key text : string) :
  inherited key = Some text → includes "$" text = false.
Proof.
  unfold inherited, Object_prototype. cbn [member].
  repeat (destruct (String.eqb _ key); [intros [= <-]; reflexivity |]).
  discriminate.
Qed.

Lemma column_dollar_free (jsToSql : gmap string JsVal) (key : string) :
  (∀ k v, jsToSql !! k = Some v → includes "$" (ToString v) = false) →
  includes "$" key = false → includes "$" (column jsToSql key) = false.
Proof.
  intros Htbl Hkey. unfold column, translation.
  destruct (jsToSql !! key) as [v |] eqn:Hk.
  - destruct (truthy v); [| exact Hkey]. simpl. apply (Htbl _ _ Hk).
  - destruct (inherited key) as [text |] eqn:Hi; [| exact Hkey].
    simpl. apply (inherited_dollar_free _ _ Hi).
Qed.

Lemma keys_dollar_free (dataToUpdate : JsObject) (jsToSql : gmap string JsVal) :
  (∀ k v, jsToSql !! k = Some v → includes "$" (ToString v) = false) →
  Forall (λ k, includes "$" k = false) dataToUpdate.*1 →
  Forall (λ k, includes "$" (column jsToSql k) = false) dataToUpdate.*1.
Proof.
  intros Htbl Hkeys. eapply Forall_impl; [exact Hkeys |].
  intros k Hk. apply column_dollar_free; assumption.
Qed.

Lemma sqlForPartialUpdate_nonempty (dataToUpdate : JsObject) (jsToSql : gmap string JsVal) :
  dataToUpdate ≠ [] →
  sqlForPartialUpdate dataToUpdate jsToSql
  = Return {| setCols := join ", " (set_clauses dataToUpdate jsToSql);
              values := dataToUpdate.*2 |}.
Proof.
  intros Hne. unfold sqlForPartialUpdate.
  destruct (decide (length (Object_keys dataToUpdate) = 0)) as [Hlen | _].
  - unfold Object_keys in Hlen. rewrite length_fmap in Hlen.
    destruct dataToUpdate; [done | discriminate].
  - do 3 f_equal. apply imap_ext. intros i k _. simpl.
    rewrite column_code. reflexivity.
Qed.

Lemma set_clauses_lookup (dataToUpdate : JsObject) (jsToSql : gmap string JsVal)
    (i : nat) (key : string) (val : JsVal) :
  dataToUpdate !! i = Some (key, val) →
  set_clauses dataToUpdate jsToSql !! i = Some (set_clause (column jsToSql key) (i + 1)).
Proof.
  intros Hi. unfold set_clauses, Object_keys.
  rewrite list_lookup_imap, list_lookup_fmap, Hi. reflexivity.
Qed.

Lemma set_clauses_length (dataToUpdate : JsObject) (jsToSql : gmap string JsVal) :
  length (set_clauses dataToUpdate jsToSql) = length (dataToUpdate.*2).
Proof. unfold set_clauses, Object_keys. rewrite length_imap, !length_fmap. reflexivity. Qed.

Lemma set_clauses_placeholders (dataToUpdate : JsObject) (jsToSql : gmap string JsVal)
    (rest : string) :
  Forall (λ k, includes "$" (column jsToSql k) = false) dataToUpdate.*1 →
  no_leading_digit rest = true →
  placeholders (join ", " (set_clauses dataToUpdate jsToSql) +:+ rest)
  = seq 1 (length dataToUpdate) ++ placeholders rest.
Proof.
  intros Hkeys Hrest. unfold set_clauses, Object_keys.
  rewrite (imap_ext _ (λ idx k, set_clause (column jsToSql k) (0 + idx + 1)))
    by reflexivity.
  rewrite placeholders_join_clauses by assumption.
  rewrite length_fmap. reflexivity.
Qed.

(** When every key of the mapping has a translation of its own in the
    table, or has none and is no member of [Object.prototype] either, the
    clauses are the ones the table alone gives. *)
Lemma set_clauses_specified (dataToUpdate : JsObject) (jsToSql : gmap string JsVal) :
  Forall (λ kv, match jsToSql !! kv.1 with
                | Some v => truthy v = true
                | None => inherited kv.1 = None
                end) dataToUpdate →
  set_clauses dataToUpdate jsToSql
  = imap (λ idx kv, set_clause (default kv.1 (ToString <$> jsToSql !! kv.1)) (idx + 1))
         dataToUpdate.
Proof.
  intros Hall. unfold set_clauses, Object_keys. rewrite imap_fmap.
  apply imap_ext. intros i kv Hi. simpl. f_equal.
  pose proof (proj1 (Forall_lookup _ _) Hall i kv Hi) as Hkv. simpl in Hkv.
  unfold column, translation. destruct (jsToSql !! kv.1) as [v |]; simpl.
  - rewrite Hkv. reflexivity.
  - rewrite Hkv. reflexivity.
Qed.

(** The example of the function's own documentation and of its test. *)
Example sqlForPartialUpdate_doc :
  sqlForPartialUpdate [("firstName", JStr "Aliya"); ("age", JNum 32)]
                      {["firstName" := JStr "first_name"]}
  = Return {| setCols := dquote +:+ "first_name" +:+ dquote +:+ "=$1, "
                         +:+ dquote +:+ "age" +:+ dquote +:+ "=$2";
              values := [JStr "Aliya"; JNum 32] |}.
Proof. vm_compute. reflexivity. Qed.

(** Where the specification's wording of [sqlForPartialUpdate] fails.  An
    array-index key is enumerated before the keys written ahead of it,
    so [{b: 1, 0: 2}] gives ["0"=$1, "b"=$2] and the values [2, 1].  A key
    that names a member of [Object.prototype] finds that member in a table
    that has no entry for it, so [{toString: 1}] with an empty table gives
    the function's source text as the column name.  And a key is copied into
    the clause as it is: one that closes the quotation and holds a
    placeholder of its own gives a [setCols] with two placeholders, [$2]
    and then [$1], for a single value. *)
Lemma C1_specified_update_counterexample :
  sqlForPartialUpdate (own_properties [("b", JNum 1); ("0", JNum 2)]) ∅
  ≠ Return (specified_update [("b", JNum 1); ("0", JNum 2)] ∅)
  ∧ sqlForPartialUpdate (own_properties [("toString", JNum 1)]) ∅
    ≠ Return (specified_update [("toString", JNum 1)] ∅)
  ∧ ∃ su,
      sqlForPartialUpdate
        (own_properties [("x" +:+ dquote +:+ "=$2," +:+ dquote +:+ "y", JNum 1)]) ∅
      = Return su
      ∧ placeholders (setCols su) = [2; 1]
      ∧ values su = [JNum 1].
Proof.
  split; [| split].
  - intros Heq. vm_compute in Heq. discriminate Heq.
  - intros Heq. vm_compute in Heq. discriminate Heq.
  - eexists. split; [vm_compute; reflexivity |]. split; vm_compute; reflexivity.
Qed.

(** C1, amended.  [written] is the update mapping as its properties were
    written and [dataToUpdate] the same properties as [Object.keys] and
    [Object.values] enumerate them: a rearrangement of the properties
    created, which is the written order itself when no key is an array
    index and no key is written twice.  For a non-empty mapping and any
    table, [sqlForPartialUpdate] returns [setCols], the clauses joined by
    [", "], and [values], the values in enumeration order.  There are as
    many clauses as values; the clause at index [i] is ["col"=$(i+1)] and
    the value at index [i] is the value of the [i]-th enumerated key.  The
    column [col] of a key the table owns is the table's value when that is
    truthy and the key itself otherwise; for a key the table does not own
    it is the text of the member of [Object.prototype] of that name, and
    the key itself when there is none.  When no column name holds a dollar
    sign, the placeholders of [setCols] are [$1 .. $n] for the [n] values.
    When, moreover, the keys are written once each, none is an array index,
    and each has a truthy entry in the table or else names no member of
    [Object.prototype], the result is the one the specification
    describes. *)
Theorem C1_sqlForPartialUpdate_enumerated
    (written : list (string * JsVal)) (jsToSql : gmap string JsVal) :
  written ≠ [] →
  let dataToUpdate := own_properties written in
  ∃ cols : list string,
    sqlForPartialUpdate dataToUpdate jsToSql
    = Return {| setCols := join ", " cols; values := dataToUpdate.*2 |}
    ∧ length cols = length (dataToUpdate.*2)
    ∧ (∀ i key val, dataToUpdate !! i = Some (key, val) →
         cols !! i = Some (set_clause (column jsToSql key) (i + 1))
         ∧ dataToUpdate.*2 !! i = Some val)
    ∧ (∀ key v, jsToSql !! key = Some v →
         column jsToSql key = if truthy v then ToString v else key)
    ∧ (∀ key, jsToSql !! key = None →
         column jsToSql key = default key (inherited key))
    ∧ dataToUpdate ≡ₚ created written
    ∧ (NoDup written.*1 → Forall (λ kv, array_index kv.1 = None) written →
       dataToUpdate = written)
    ∧ (Forall (λ key, includes "$" (column jsToSql key) = false) dataToUpdate.*1 →
       placeholders (join ", " cols) = seq 1 (length (dataToUpdate.*2)))
    ∧ (NoDup written.*1 →
       Forall (λ kv, array_index kv.1 = None) written →
       Forall (λ kv, match jsToSql !! kv.1 with
                     | Some v => truthy v = true
                     | None => inherited kv.1 = None
                     end) written →
       sqlForPartialUpdate dataToUpdate jsToSql
       = Return (specified_update written jsToSql)).
Proof.
  intros Hne dataToUpdate.
  assert (dataToUpdate ≠ []) as Hne' by apply own_properties_nonempty, Hne.
  exists (set_clauses dataToUpdate jsToSql).
  split; [apply sqlForPartialUpdate_nonempty, Hne' |].
  split; [apply set_clauses_length |].
  split.
  { intros i key val Hi. split; [apply set_clauses_lookup with val, Hi |].
    rewrite list_lookup_fmap, Hi. reflexivity. }
  split; [apply column_own |].
  split; [apply column_not_own |].
  split; [apply own_properties_Permutation |].
  split; [apply own_properties_written |].
  split.
  { intros Hcols. rewrite <- (string_app_nil_r (join _ _)).
    rewrite set_clauses_placeholders by (assumption || reflexivity).
    rewrite length_fmap, app_nil_r. reflexivity. }
  intros Hdup Hidx Htbl.
  rewrite (sqlForPartialUpdate_nonempty _ _ Hne'). subst dataToUpdate.
  rewrite (own_properties_written _ Hdup Hidx).
  rewrite (set_clauses_specified _ _ Htbl). reflexivity.
Qed.

Lemma C1_sqlForPartialUpdate_enumerated_witness :
  sqlForPartialUpdate (own_properties [("firstName", JStr "Aliya"); ("age", JNum 32)])
                      {["firstName" := JStr "first_name"]}
  = Return (specified_update [("firstName", JStr "Aliya"); ("age", JNum 32)]
                           {["firstName" := JStr "first_name"]}).
Proof.
  destruct (C1_sqlForPartialUpdate_enumerated
              [("firstName", JStr "Aliya"); ("age", JNum 32)]
              {["firstName" := JStr "first_name"]} ltac:(discriminate))
    as (cols & _ & _ & _ & _ & _ & _ & _ & _ & Hspecified).
  apply Hspecified.
  - apply (bool_decide_unpack _). vm_compute. reflexivity.
  - repeat constructor.
  - repeat constructor.
Defined.

(** C2.  Whatever the translation table, an empty update mapping makes
    [sqlForPartialUpdate] throw [BadRequestError]; it returns nothing.  The
    two [update] methods pass the rejection on before any statement reaches
    the database, so a zero-field update is not turned into a query. *)
Theorem C2_sqlForPartialUpdate_empty (jsToSql : gmap string JsVal) :
  sqlForPartialUpdate [] jsToSql = Throw (BadRequestError "No data")
  ∧ (∀ su, sqlForPartialUpdate [] jsToSql ≠ Return su)
  ∧ (∀ D (Hdb : Database D) (key : JsVal) (w : World D),
       Job.update key [] w = (Throw (BadRequestError "No data"), w)
       ∧ Company.update key [] w = (Throw (BadRequestError "No data"), w)).
Proof.
  split; [reflexivity |]. split; [intros su; discriminate |].
  intros D Hdb key w. split; reflexivity.
Qed.

(** Where a falsy entry and no entry part ways: under a key that names a
    member of [Object.prototype].  With the entry, falsy as it is, the
    lookup stops at the table and the key is the column name; without it
    the lookup goes on to the prototype, finds a function, and the column
    name is that function's source text. *)
Lemma C9_falsy_entry_counterexample :
  ({["toString" := JStr ""]} : gmap string JsVal) !! "toString" = Some (JStr "")
  ∧ truthy (JStr "") = false
  ∧ sqlForPartialUpdate [("toString", JNum 1)] {["toString" := JStr ""]}
    = Return {| setCols := set_clause "toString" 1; values := [JNum 1] |}
  ∧ sqlForPartialUpdate [("toString", JNum 1)] (delete "toString" {["toString" := JStr ""]})
    = Return {| setCols := set_clause (native "toString") 1; values := [JNum 1] |}
  ∧ sqlForPartialUpdate [("toString", JNum 1)] {["toString" := JStr ""]}
    ≠ sqlForPartialUpdate [("toString", JNum 1)]
                          (delete "toString" {["toString" := JStr ""]}).
Proof.
  split; [reflexivity |]. split; [reflexivity |].
  split; [vm_compute; reflexivity |]. split; [vm_compute; reflexivity |].
  intros Heq. vm_compute in Heq. discriminate Heq.
Qed.

(** C9, amended.  Under a key whose table entry is falsy the clause is
    written with the key itself as the column name, because the lookup
    tests the value found, not the presence of the key.  The entry counts
    as no entry, and the result is the one for the table without that key,
    when the key names no member of [Object.prototype]; for a key that does
    name one, the table without the entry gives that member's text as the
    column name instead. *)
Theorem C9_falsy_translation_uses_key
    (dataToUpdate : JsObject) (jsToSql : gmap string JsVal) (key : string) (v : JsVal) :
  jsToSql !! key = Some v → truthy v = false →
  (∀ i val, dataToUpdate !! i = Some (key, val) →
     ∃ cols, sqlForPartialUpdate dataToUpdate jsToSql
             = Return {| setCols := join ", " cols; values := dataToUpdate.*2 |}
             ∧ cols !! i = Some (set_clause key (i + 1)))
  ∧ (inherited key = None →
     sqlForPartialUpdate dataToUpdate jsToSql
     = sqlForPartialUpdate dataToUpdate (delete key jsToSql))
  ∧ (∀ text i val, inherited key = Some text → dataToUpdate !! i = Some (key, val) →
       ∃ cols, sqlForPartialUpdate dataToUpdate (delete key jsToSql)
               = Return {| setCols := join ", " cols; values := dataToUpdate.*2 |}
               ∧ cols !! i = Some (set_clause text (i + 1))).
Proof.
  intros Hk Hv. pose proof (column_falsy _ _ _ Hk Hv) as Hcol.
  split; [| split].
  - intros i val Hi. exists (set_clauses dataToUpdate jsToSql). split.
    + apply sqlForPartialUpdate_nonempty. intros ->. discriminate.
    + rewrite (set_clauses_lookup _ _ _ _ _ Hi), Hcol. reflexivity.
  - intros Hinh. destruct dataToUpdate as [| kv rest]; [reflexivity |].
    rewrite !sqlForPartialUpdate_nonempty by discriminate.
    do 3 f_equal. apply imap_ext. intros i k _. simpl.
    rewrite (column_delete _ _ _ Hcol Hinh). reflexivity.
  - intros text i val Hinh Hi. exists (set_clauses dataToUpdate (delete key jsToSql)). split.
    + apply sqlForPartialUpdate_nonempty. intros ->. discriminate.
    + rewrite (set_clauses_lookup _ _ _ _ _ Hi).
      rewrite column_not_own by apply lookup_delete_eq. rewrite Hinh. reflexivity.
Qed.

Lemma C9_falsy_translation_uses_key_witness :
  (∀ i val, [("firstName", JStr "Aliya"); ("age", JNum 32)] !! i = Some ("age", val) →
     ∃ cols, sqlForPartialUpdate [("firstName", JStr "Aliya"); ("age", JNum 32)]
                                 {["age" := JStr ""]}
             = Return {| setCols := join ", " cols; values := [JStr "Aliya"; JNum 32] |}
             ∧ cols !! i = Some (set_clause "age" (i + 1)))
  ∧ sqlForPartialUpdate [("firstName", JStr "Aliya"); ("age", JNum 32)]
                        {["age" := JStr ""]}
    = sqlForPartialUpdate [("firstName", JStr "Aliya"); ("age", JNum 32)]
                          (delete "age" {["age" := JStr ""]}).
Proof.
  assert (({["age" := JStr ""]} : gmap string JsVal) !! "age" = Some (JStr "")) as Hentry
    by reflexivity.
  destruct (C9_falsy_translation_uses_key
              [("firstName", JStr "Aliya"); ("age", JNum 32)]
              {["age" := JStr ""]} "age" (JStr "") Hentry eq_refl)
    as (Hclause & Hsame & _).
  split; [exact Hclause | apply Hsame; reflexivity].
Defined.

(** ** Filter queries: placeholders and bind values *)

Ltac split_filters :=
  rewrite ?truthy_js_or;
  repeat match goal with
         | |- context [truthy ?v] => destruct (truthy v)
         | |- context [js_strict_eq ?a ?b] => destruct (js_strict_eq a b)
         end.

(** A clause that ends in a placeholder has that placeholder and no other. *)
Lemma filter_clause_placeholder (keyword comparison : string) (n : nat) :
  includes "$" keyword = false → includes "$" comparison = false →
  placeholders (filter_clause keyword (comparison +:+ " $" +:+ pretty n)) = [n].
Proof.
  intros Hkw Hcmp. unfold filter_clause.
  rewrite (placeholders_skip nl) by reflexivity.
  rewrite (placeholders_skip "        ") by reflexivity.
  rewrite (placeholders_skip keyword) by exact Hkw.
  rewrite (placeholders_skip " ") by reflexivity.
  rewrite (placeholders_skip comparison) by exact Hcmp.
  change (" $" +:+ pretty n) with (" " +:+ ("$" +:+ pretty n)).
  rewrite (placeholders_skip " ") by reflexivity.
  apply placeholders_dollar_pretty.
Qed.

Ltac value_step_with keyword :=
  exists keyword; split; [auto |]; split;
  [reflexivity | apply filter_clause_placeholder; reflexivity].

Lemma job_placeholders (title minSalary hasEquity : JsVal) :
  placeholders (Job.findByCriteria_sql title minSalary hasEquity).1
  = seq 1 (length (Job.findByCriteria_sql title minSalary hasEquity).2).
Proof.
  unfold Job.findByCriteria_sql, Job.title_filter, Job.minSalary_filter, Job.hasEquity_filter.
  split_filters; vm_compute; reflexivity.
Qed.

Lemma company_placeholders (name minEmployees maxEmployees : JsVal) :
  placeholders (Company.findByCriteria_sql name minEmployees maxEmployees).1
  = seq 1 (length (Company.findByCriteria_sql name minEmployees maxEmployees).2).
Proof.
  unfold Company.findByCriteria_sql, Company.name_filter, Company.minEmployees_filter,
    Company.maxEmployees_filter.
  split_filters; vm_compute; reflexivity.
Qed.

Lemma job_values (title minSalary hasEquity : JsVal) :
  (Job.findByCriteria_sql title minSalary hasEquity).2
  = (if truthy title then [JStr ("%" +:+ ToString title +:+ "%")] else [])
    ++ (if truthy minSalary then [minSalary] else []).
Proof.
  unfold Job.findByCriteria_sql, Job.title_filter, Job.minSalary_filter, Job.hasEquity_filter.
  destruct (truthy title), (truthy minSalary);
    destruct (js_strict_eq hasEquity (JStr "true") || js_strict_eq hasEquity (JBool true)),
             (js_strict_eq hasEquity (JStr "false") || js_strict_eq hasEquity (JBool false));
    reflexivity.
Qed.

Lemma company_values (name minEmployees maxEmployees : JsVal) :
  (Company.findByCriteria_sql name minEmployees maxEmployees).2
  = (if truthy name then [JStr ("%" +:+ ToString name +:+ "%")] else [])
    ++ (if truthy minEmployees then [minEmployees] else [])
    ++ (if truthy maxEmployees then [maxEmployees] else []).
Proof.
  unfold Company.findByCriteria_sql, Company.name_filter, Company.minEmployees_filter,
    Company.maxEmployees_filter.
  destruct (truthy name), (truthy minEmployees), (truthy maxEmployees); reflexivity.
Qed.

(** The comparisons of the jobs statement, each with the placeholder of its
    slot. *)
Lemma job_comparisons (title minSalary hasEquity : JsVal) :
  includes "title ILIKE $1" (Job.findByCriteria_sql title minSalary hasEquity).1
  = truthy title
  ∧ includes (if truthy title then "salary >= $2" else "salary >= $1")
             (Job.findByCriteria_sql title minSalary hasEquity).1
    = truthy minSalary.
Proof.
  unfold Job.findByCriteria_sql, Job.title_filter, Job.minSalary_filter, Job.hasEquity_filter.
  split; split_filters; vm_compute; reflexivity.
Qed.

Lemma company_comparisons (name minEmployees maxEmployees : JsVal) :
  includes "name ILIKE $1" (Company.findByCriteria_sql name minEmployees maxEmployees).1
  = truthy name
  ∧ includes (if truthy name then "num_employees >= $2" else "num_employees >= $1")
             (Company.findByCriteria_sql name minEmployees maxEmployees).1
    = truthy minEmployees
  ∧ includes ("num_employees <= $"
              +:+ pretty (length (Company.findByCriteria_sql name minEmployees
                                                              maxEmployees).2))
             (Company.findByCriteria_sql name minEmployees maxEmployees).1
    = truthy maxEmployees.
Proof.
  unfold Company.findByCriteria_sql, Company.name_filter, Company.minEmployees_filter,
    Company.maxEmployees_filter.
  split; [| split]; split_filters; vm_compute; reflexivity.
Qed.

(** The equity flag changes neither the bind values nor the placeholders. *)
Lemma job_equity_no_slot (title minSalary hasEquity : JsVal) :
  (Job.findByCriteria_sql title minSalary hasEquity).2
  = (Job.findByCriteria_sql title minSalary JUndefined).2
  ∧ placeholders (Job.findByCriteria_sql title minSalary hasEquity).1
    = placeholders (Job.findByCriteria_sql title minSalary JUndefined).1.
Proof.
  split; [rewrite !job_values; reflexivity |].
  rewrite !job_placeholders, !job_values. reflexivity.
Qed.

Lemma job_title_step (title : JsVal) (query : string) :
  value_step (Job.title_filter title) (truthy title) "title ILIKE"
             (JStr ("%" +:+ ToString title +:+ "%")) query [].
Proof.
  unfold value_step, Job.title_filter.
  destruct (truthy title); [| reflexivity]. value_step_with "WHERE".
Qed.

Lemma job_minSalary_step (title minSalary : JsVal) (query : string) (vals : list JsVal) :
  value_step (Job.minSalary_filter title minSalary) (truthy minSalary) "salary >="
             minSalary query vals.
Proof.
  unfold value_step, Job.minSalary_filter.
  destruct (truthy minSalary); [| reflexivity].
  destruct (truthy title); [value_step_with "AND" | value_step_with "WHERE"].
Qed.

Lemma job_hasEquity_step (title minSalary hasEquity : JsVal) (query : string)
    (vals : list JsVal) :
  literal_step (Job.hasEquity_filter title minSalary hasEquity) (equity_flag hasEquity)
               query vals.
Proof.
  unfold literal_step, Job.hasEquity_filter. rewrite equity_flag_code.
  destruct (js_strict_eq hasEquity (JStr "true") || js_strict_eq hasEquity (JBool true));
    [| destruct (js_strict_eq hasEquity (JStr "false")
                 || js_strict_eq hasEquity (JBool false))];
    [| | reflexivity].
  all: destruct (truthy (js_or title minSalary));
    [exists "AND" | exists "WHERE"]; split; auto.
Qed.

Lemma company_name_step (name : JsVal) (query : string) :
  value_step (Company.name_filter name) (truthy name) "name ILIKE"
             (JStr ("%" +:+ ToString name +:+ "%")) query [].
Proof.
  unfold value_step, Company.name_filter.
  destruct (truthy name); [| reflexivity]. value_step_with "WHERE".
Qed.

Lemma company_minEmployees_step (name minEmployees : JsVal) (query : string)
    (vals : list JsVal) :
  value_step (Company.minEmployees_filter name minEmployees) (truthy minEmployees)
             "num_employees >=" minEmployees query vals.
Proof.
  unfold value_step, Company.minEmployees_filter.
  destruct (truthy minEmployees); [| reflexivity].
  destruct (truthy name); [value_step_with "AND" | value_step_with "WHERE"].
Qed.

Lemma company_maxEmployees_step (name minEmployees maxEmployees : JsVal)
    (query : string) (vals : list JsVal) :
  value_step (Company.maxEmployees_filter name minEmployees maxEmployees)
             (truthy maxEmployees) "num_employees <=" maxEmployees query vals.
Proof.
  unfold value_step, Company.maxEmployees_filter.
  destruct (truthy maxEmployees); [| reflexivity].
  destruct (truthy (js_or name minEmployees));
    [value_step_with "AND" | value_step_with "WHERE"].
Qed.

(** C3.  In the statements of [Job.findByCriteria] and
    [Company.findByCriteria] the placeholders are [$1 .. $n], left to right,
    for the [n] bind values returned, and the values are those of the
    provided filters in the declared order, so that placeholder and value
    match one to one.  A provided text filter is written with [$1]; a
    provided minimum is written with [$2] after a text filter and with [$1]
    without one; a provided maximum, the last value, is written with the
    placeholder numbered by the count of all values.  The equity flag of
    the jobs query changes neither the values nor the placeholders.  Step by
    step: a provided value filter, on whatever value list it finds, appends
    one clause that compares its column with the placeholder numbered by
    the count of values so far plus one, the only placeholder of the clause,
    and pushes its value, and a filter that is not provided changes nothing;
    the text filter runs on the empty list.  The equity step appends
    [equity > 0] or [equity = 0], a comparison with a literal, and hands the
    value list on as it is. *)
Theorem C3_placeholders_track_bind_values :
  (∀ title minSalary hasEquity,
     let st := Job.findByCriteria_sql title minSalary hasEquity in
     placeholders st.1 = seq 1 (length st.2)
     ∧ st.2 = (if truthy title then [JStr ("%" +:+ ToString title +:+ "%")] else [])
              ++ (if truthy minSalary then [minSalary] else [])
     ∧ includes "title ILIKE $1" st.1 = truthy title
     ∧ includes (if truthy title then "salary >= $2" else "salary >= $1") st.1
       = truthy minSalary
     ∧ st.2 = (Job.findByCriteria_sql title minSalary JUndefined).2
     ∧ placeholders st.1
       = placeholders (Job.findByCriteria_sql title minSalary JUndefined).1)
  ∧ (∀ name minEmployees maxEmployees,
       let st := Company.findByCriteria_sql name minEmployees maxEmployees in
       placeholders st.1 = seq 1 (length st.2)
       ∧ st.2 = (if truthy name then [JStr ("%" +:+ ToString name +:+ "%")] else [])
                ++ (if truthy minEmployees then [minEmployees] else [])
                ++ (if truthy maxEmployees then [maxEmployees] else [])
       ∧ includes "name ILIKE $1" st.1 = truthy name
       ∧ includes (if truthy name then "num_employees >= $2" else "num_employees >= $1")
                  st.1
         = truthy minEmployees
       ∧ includes ("num_employees <= $" +:+ pretty (length st.2)) st.1
         = truthy maxEmployees)
  ∧ (∀ title query,
       value_step (Job.title_filter title) (truthy title) "title ILIKE"
                  (JStr ("%" +:+ ToString title +:+ "%")) query [])
  ∧ (∀ title minSalary query vals,
       value_step (Job.minSalary_filter title minSalary) (truthy minSalary) "salary >="
                  minSalary query vals)
  ∧ (∀ title minSalary hasEquity query vals,
       literal_step (Job.hasEquity_filter title minSalary hasEquity)
                    (equity_flag hasEquity) query vals)
  ∧ (∀ name query,
       value_step (Company.name_filter name) (truthy name) "name ILIKE"
                  (JStr ("%" +:+ ToString name +:+ "%")) query [])
  ∧ (∀ name minEmployees query vals,
       value_step (Company.minEmployees_filter name minEmployees) (truthy minEmployees)
                  "num_employees >=" minEmployees query vals)
  ∧ (∀ name minEmployees maxEmployees query vals,
       value_step (Company.maxEmployees_filter name minEmployees maxEmployees)
                  (truthy maxEmployees) "num_employees <=" maxEmployees query vals).
Proof.
  split.
  { intros title minSalary hasEquity st. subst st.
    split; [apply job_placeholders |]. split; [apply job_values |].
    destruct (job_comparisons title minSalary hasEquity) as [Htitle Hmin].
    split; [exact Htitle |]. split; [exact Hmin |]. apply job_equity_no_slot. }
  split.
  { intros name minEmployees maxEmployees st. subst st.
    split; [apply company_placeholders |]. split; [apply company_values |].
    apply company_comparisons. }
  split; [exact job_title_step |].
  split; [exact job_minSalary_step |].
  split; [exact job_hasEquity_step |].
  split; [exact company_name_step |].
  split; [exact company_minEmployees_step |].
  exact company_maxEmployees_step.
Qed.

(** ** Filter queries: WHERE and AND *)

Lemma job_refines (title minSalary hasEquity : JsVal) :
  Job.findByCriteria_sql title minSalary hasEquity
  = (let '(q, vs) := compose_filters true (job_filters title minSalary hasEquity) [] in
     (Job.base +:+ q +:+ Job.order_by, vs)).
Proof.
  unfold Job.findByCriteria_sql, Job.title_filter, Job.minSalary_filter, Job.hasEquity_filter.
  unfold job_filters. rewrite equity_flag_code.
  split_filters; vm_compute; reflexivity.
Qed.

Lemma company_refines (name minEmployees maxEmployees : JsVal) :
  Company.findByCriteria_sql name minEmployees maxEmployees
  = (let '(q, vs) := compose_filters true
                       (company_filters name minEmployees maxEmployees) [] in
     (Company.base +:+ q +:+ Company.order_by, vs)).
Proof.
  unfold Company.findByCriteria_sql, Company.name_filter, Company.minEmployees_filter,
    Company.maxEmployees_filter, company_filters.
  split_filters; vm_compute; reflexivity.
Qed.

(** C4.  Both filter queries are the generic composition over their filters
    in the declared order (text, minimum, then maximum or equity): base
    statement, the clauses of the present filters, ORDER BY.  Whatever
    filters are present, the keywords of the statement read WHERE once,
    first, and AND for every further present filter. *)
Theorem C4_where_then_and :
  (∀ title minSalary hasEquity,
     Job.findByCriteria_sql title minSalary hasEquity
     = (let '(q, vs) := compose_filters true (job_filters title minSalary hasEquity) [] in
        (Job.base +:+ q +:+ Job.order_by, vs))
     ∧ keywords (Job.findByCriteria_sql title minSalary hasEquity).1
       = where_then_and (count_present (job_filters title minSalary hasEquity)))
  ∧ (∀ name minEmployees maxEmployees,
       Company.findByCriteria_sql name minEmployees maxEmployees
       = (let '(q, vs) := compose_filters true
                            (company_filters name minEmployees maxEmployees) [] in
          (Company.base +:+ q +:+ Company.order_by, vs))
       ∧ keywords (Company.findByCriteria_sql name minEmployees maxEmployees).1
         = where_then_and (count_present (company_filters name minEmployees maxEmployees))).
Proof.
  split.
  - intros title minSalary hasEquity. split; [apply job_refines |].
    unfold Job.findByCriteria_sql, Job.title_filter, Job.minSalary_filter, Job.hasEquity_filter.
    unfold job_filters. rewrite equity_flag_code.
    split_filters; vm_compute; reflexivity.
  - intros name minEmployees maxEmployees. split; [apply company_refines |].
    unfold Company.findByCriteria_sql, Company.name_filter, Company.minEmployees_filter,
      Company.maxEmployees_filter, company_filters.
    split_filters; vm_compute; reflexivity.
Qed.

Example job_all_filters :
  Job.findByCriteria_sql (JStr "J") (JNum 90000) (JBool true)
  = (Job.base +:+ nl +:+ "        WHERE title ILIKE $1"
              +:+ nl +:+ "        AND salary >= $2"
              +:+ nl +:+ "        AND equity > 0" +:+ Job.order_by,
     [JStr "%J%"; JNum 90000]).
Proof. vm_compute. reflexivity. Qed.

Example company_bounds_only :
  Company.findByCriteria_sql JUndefined (JNum 2) (JNum 3)
  = (Company.base +:+ nl +:+ "        WHERE num_employees >= $1"
                  +:+ nl +:+ "        AND num_employees <= $2" +:+ Company.order_by,
     [JNum 2; JNum 3]).
Proof. vm_compute. reflexivity. Qed.

(** ** Filter queries: which filters count as provided *)

(** C6.  The values [undefined], [0] and the empty string are falsy.  A
    filter has its clause in the statement exactly when its value is truthy,
    and the bind values are those of the truthy filters, in order; so a
    falsy value adds neither clause nor bind value.  The equity flag of the
    jobs query is read by strict equality instead: [equity > 0] is in the
    statement exactly for [true] and ["true"], [equity = 0] exactly for
    [false] and ["false"], and neither for any other value.  The range check
    of the companies query likewise only looks at truthy bounds. *)
Theorem C6_filters_present_iff_truthy :
  (truthy JUndefined = false ∧ truthy (JNum 0) = false ∧ truthy (JStr "") = false)
  ∧ (∀ title minSalary hasEquity,
       let st := Job.findByCriteria_sql title minSalary hasEquity in
       includes "title ILIKE" st.1 = truthy title
       ∧ includes "salary >=" st.1 = truthy minSalary
       ∧ includes "equity > 0" st.1
         = bool_decide (hasEquity = JBool true ∨ hasEquity = JStr "true")
       ∧ includes "equity = 0" st.1
         = bool_decide (hasEquity = JBool false ∨ hasEquity = JStr "false")
       ∧ st.2 = (if truthy title then [JStr ("%" +:+ ToString title +:+ "%")] else [])
                ++ (if truthy minSalary then [minSalary] else []))
  ∧ (∀ name minEmployees maxEmployees,
       let st := Company.findByCriteria_sql name minEmployees maxEmployees in
       includes "name ILIKE" st.1 = truthy name
       ∧ includes "num_employees >=" st.1 = truthy minEmployees
       ∧ includes "num_employees <=" st.1 = truthy maxEmployees
       ∧ st.2 = (if truthy name then [JStr ("%" +:+ ToString name +:+ "%")] else [])
                ++ (if truthy minEmployees then [minEmployees] else [])
                ++ (if truthy maxEmployees then [maxEmployees] else []))
  ∧ (∀ minEmployees maxEmployees,
       Company.invalid_range minEmployees maxEmployees
       = truthy minEmployees && truthy maxEmployees && js_gt minEmployees maxEmployees).
Proof.
  split; [repeat split |]. split; [| split].
  - intros title minSalary hasEquity st. subst st.
    rewrite <- strict_true_decide, <- strict_false_decide.
    unfold Job.findByCriteria_sql, Job.title_filter, Job.minSalary_filter, Job.hasEquity_filter.
    rewrite truthy_js_or.
    destruct (js_strict_eq hasEquity (JStr "true") || js_strict_eq hasEquity (JBool true)) eqn:Et.
    + rewrite (strict_true_not_false _ Et).
      destruct (truthy title), (truthy minSalary); vm_compute; repeat split.
    + destruct (js_strict_eq hasEquity (JStr "false") || js_strict_eq hasEquity (JBool false));
        destruct (truthy title), (truthy minSalary); vm_compute; repeat split.
  - intros name minEmployees maxEmployees st. subst st.
    unfold Company.findByCriteria_sql, Company.name_filter, Company.minEmployees_filter,
      Company.maxEmployees_filter.
    rewrite truthy_js_or.
    destruct (truthy name), (truthy minEmployees), (truthy maxEmployees);
      vm_compute; repeat split.
  - intros minEmployees maxEmployees. unfold Company.invalid_range.
    rewrite !truthy_js_and. reflexivity.
Qed.

Lemma hasEquity_filter_other (title minSalary hasEquity : JsVal) (st : Stmt) :
  hasEquity ≠ JBool true → hasEquity ≠ JStr "true" →
  hasEquity ≠ JBool false → hasEquity ≠ JStr "false" →
  Job.hasEquity_filter title minSalary hasEquity st = st.
Proof.
  intros H1 H2 H3 H4. unfold Job.hasEquity_filter. destruct st as [q vs].
  rewrite strict_true_decide, strict_false_decide.
  rewrite !bool_decide_eq_false_2; [reflexivity | |]; intros [? | ?]; contradiction.
Qed.

(** ** The data-access methods against the database *)

Section WithDatabase.
Context `{Database D}.

Lemma query_run (sql : string) (vals : list JsVal) (d d' : D)
    (tr : list Call) (r : Result QueryResult) :
  db_query sql vals d = (r, d') →
  query sql vals {| db := d; trace := tr |}
  = (r, {| db := d'; trace := tr ++ [(sql, vals)] |}).
Proof. intros Hq. unfold query. simpl. rewrite Hq. reflexivity. Qed.

Ltac run_query Hq := unfold bind; rewrite (query_run _ _ _ _ _ _ Hq); simpl.

Lemma company_invalid_range_throws (name minEmployees maxEmployees : JsVal) (w : World D) :
  truthy minEmployees = true → truthy maxEmployees = true →
  js_gt minEmployees maxEmployees = true →
  Company.findByCriteria name minEmployees maxEmployees w
  = (Throw (BadRequestError "minEmployees cannot be greater than maxEmployees"), w).
Proof.
  intros Hmin Hmax Hgt. unfold Company.findByCriteria, Company.invalid_range.
  rewrite !truthy_js_and, Hmin, Hmax. simpl. rewrite Hgt. reflexivity.
Qed.

(** On two numbers the check does what it is there for: when both are
    non-zero and [minEmployees] is greater than [maxEmployees],
    [Company.findByCriteria] throws [BadRequestError] and leaves the world
    as it found it: no statement was built into a call, the trace of
    database calls has not grown. *)
Lemma company_numeric_range_rejected (name : JsVal) (minEmployees maxEmployees : Z)
    (w : World D) :
  minEmployees ≠ 0%Z → maxEmployees ≠ 0%Z → (maxEmployees < minEmployees)%Z →
  Company.findByCriteria name (JNum minEmployees) (JNum maxEmployees) w
  = (Throw (BadRequestError "minEmployees cannot be greater than maxEmployees"), w).
Proof.
  intros Hmin Hmax Hlt. apply company_invalid_range_throws; simpl.
  - apply negb_true_iff, Z.eqb_neq, Hmin.
  - apply negb_true_iff, Z.eqb_neq, Hmax.
  - unfold js_gt, js_lt. simpl. apply Z.ltb_lt, Hlt.
Qed.

(** C7.  When the database answers a statement with no row, [get],
    [update] and [remove] of [Job] and of [Company] throw [NotFoundError].
    Each has made exactly its one call by then; for [update] that is the
    UPDATE statement carrying the SET clause [sqlForPartialUpdate] built
    from the data. *)
Theorem C7_missing_row_is_NotFound (key : JsVal) (d d' : D) (tr : list Call) :
  (db_query Job.get_sql [key] d = (Return no_rows, d') →
   Job.get key {| db := d; trace := tr |}
   = (Throw (NotFoundError ("No job with an id of " +:+ ToString key)),
      {| db := d'; trace := tr ++ [(Job.get_sql, [key])] |}))
  ∧ (∀ data su,
       sqlForPartialUpdate data {["companyHandle" := JStr "company_handle"]} = Return su →
       db_query (Job.update_sql (setCols su) ("$" +:+ pretty (length (values su) + 1)))
                (values su ++ [key]) d = (Return no_rows, d') →
       Job.update key data {| db := d; trace := tr |}
       = (Throw (NotFoundError ("No job with id: " +:+ ToString key)),
          {| db := d';
             trace := tr ++ [(Job.update_sql (setCols su)
                                ("$" +:+ pretty (length (values su) + 1)),
                              values su ++ [key])] |}))
  ∧ (db_query Job.remove_sql [key] d = (Return no_rows, d') →
     Job.remove key {| db := d; trace := tr |}
     = (Throw (NotFoundError "No job found"),
        {| db := d'; trace := tr ++ [(Job.remove_sql, [key])] |}))
  ∧ (db_query Company.get_sql [key] d = (Return no_rows, d') →
     Company.get key {| db := d; trace := tr |}
     = (Throw (NotFoundError ("No company: " +:+ ToString key)),
        {| db := d'; trace := tr ++ [(Company.get_sql, [key])] |}))
  ∧ (∀ data su,
       sqlForPartialUpdate data {["numEmployees" := JStr "num_employees";
                                  "logoUrl" := JStr "logo_url"]} = Return su →
       db_query (Company.update_sql (setCols su) ("$" +:+ pretty (length (values su) + 1)))
                (values su ++ [key]) d = (Return no_rows, d') →
       Company.update key data {| db := d; trace := tr |}
       = (Throw (NotFoundError ("No company: " +:+ ToString key)),
          {| db := d';
             trace := tr ++ [(Company.update_sql (setCols su)
                                ("$" +:+ pretty (length (values su) + 1)),
                              values su ++ [key])] |}))
  ∧ (db_query Company.remove_sql [key] d = (Return no_rows, d') →
     Company.remove key {| db := d; trace := tr |}
     = (Throw (NotFoundError ("No company: " +:+ ToString key)),
        {| db := d'; trace := tr ++ [(Company.remove_sql, [key])] |})).
Proof.
  repeat split.
  - intros Hq. unfold Job.get. run_query Hq. reflexivity.
  - intros data su Hsu Hq. unfold Job.update, bind at 1, lift. rewrite Hsu.
    run_query Hq. reflexivity.
  - intros Hq. unfold Job.remove. run_query Hq. reflexivity.
  - intros Hq. unfold Company.get. run_query Hq. reflexivity.
  - intros data su Hsu Hq. unfold Company.update, bind at 1, lift. rewrite Hsu.
    run_query Hq. reflexivity.
  - intros Hq. unfold Company.remove. run_query Hq. reflexivity.
Qed.


(** C10.  A [hasEquity] that is none of [true], ["true"], [false],
    ["false"] changes nothing: the statement and its bind values are those
    for an absent flag, the call behaves as the call without the flag, and
    when the database answers, its rows are returned; no error is raised
    for the value. *)
Theorem C10_unrecognised_hasEquity_ignored
    (title minSalary hasEquity : JsVal) (w : World D) :
  hasEquity ≠ JBool true → hasEquity ≠ JStr "true" →
  hasEquity ≠ JBool false → hasEquity ≠ JStr "false" →
  Job.findByCriteria_sql title minSalary hasEquity
  = Job.findByCriteria_sql title minSalary JUndefined
  ∧ Job.findByCriteria title minSalary hasEquity w
    = Job.findByCriteria title minSalary JUndefined w
  ∧ ∀ res d',
      db_query (Job.findByCriteria_sql title minSalary JUndefined).1
               (Job.findByCriteria_sql title minSalary JUndefined).2 (db w)
      = (Return res, d') →
      Job.findByCriteria title minSalary hasEquity w
      = (Return (rows res),
         {| db := d';
            trace := trace w ++ [Job.findByCriteria_sql title minSalary JUndefined] |}).
Proof.
  intros H1 H2 H3 H4.
  assert (Job.findByCriteria_sql title minSalary hasEquity
          = Job.findByCriteria_sql title minSalary JUndefined) as Hsql.
  { unfold Job.findByCriteria_sql. rewrite hasEquity_filter_other by assumption.
    rewrite hasEquity_filter_other by discriminate. reflexivity. }
  split; [exact Hsql |]. split.
  - unfold Job.findByCriteria. rewrite Hsql. reflexivity.
  - intros res d' Hq. unfold Job.findByCriteria. rewrite Hsql.
    unfold bind, query, ret. rewrite Hq.
    destruct (Job.findByCriteria_sql title minSalary JUndefined). reflexivity.
Qed.
End WithDatabase.

(** ** Concrete runs against the scripted database *)

(** The range check is JavaScript's [>]: on two numbers it is the numeric
    order; two strings are compared by code units. *)
Example range_check_on_numbers :
  Company.invalid_range (JNum 10) (JNum 5) = true
  ∧ Company.invalid_range (JNum 5) (JNum 10) = false
  ∧ Company.invalid_range (JNum 0) (JNum (-1)) = false.
Proof. repeat split. Qed.

Example range_check_on_strings :
  Company.invalid_range (JStr "5") (JStr "3") = true
  ∧ Company.invalid_range (JStr "10") (JStr "5") = false
  ∧ Company.invalid_range (JStr "9") (JStr "10") = true.
Proof. repeat split. Qed.

Example numeric_range_rejected :
  Company.findByCriteria JUndefined (JNum 5) (JNum 3) (start [])
  = (Throw (BadRequestError "minEmployees cannot be greater than maxEmployees"), start []).
Proof. apply (company_numeric_range_rejected JUndefined 5 3 (start [])); lia. Qed.

(** C5.  The criteria come out of a query string, so the two bounds reach
    [Company.findByCriteria] as strings, and on two strings [>] compares
    code units: ["10" > "9"] is false.  With [minEmployees = "10"] and
    [maxEmployees = "9"] both bounds are provided and the minimum exceeds
    the maximum, yet the range check lets them through: nothing is thrown
    ahead of the query, the statement with both bounds is built, and it is
    handed to the database with the two strings as bind values, whatever
    the database and whatever the name filter. *)
Theorem C5_string_bounds_pass_the_range_check :
  js_gt (JStr "10") (JStr "9") = false
  ∧ Company.invalid_range (JStr "10") (JStr "9") = false
  ∧ Company.findByCriteria JUndefined (JStr "10") (JStr "9") (start [])
    = (Return [],
       {| db := [];
          trace := [(Company.base +:+ filter_clause "WHERE" "num_employees >= $1"
                                  +:+ filter_clause "AND" "num_employees <= $2"
                                  +:+ Company.order_by,
                     [JStr "10"; JStr "9"])] |})
  ∧ (∀ D (Hdb : Database D) (name : JsVal) (w : World D),
       calls_exactly (Company.findByCriteria name (JStr "10") (JStr "9")) w 1
       ∧ ∃ call, last (trace (Company.findByCriteria name (JStr "10") (JStr "9") w).2)
                 = Some call
                 ∧ includes "num_employees >= $" call.1 = true
                 ∧ includes "num_employees <= $" call.1 = true).
Proof.
  split; [reflexivity |]. split; [reflexivity |]. split; [vm_compute; reflexivity |].
  intros D Hdb name w. unfold Company.findByCriteria.
  change (Company.invalid_range (JStr "10") (JStr "9")) with false.
  unfold bind, query, calls_exactly. cbn iota.
  destruct (db_query _ _ (db w)) as [[res | e] d]; cbn [fst snd trace].
  all: split; [eexists; split; reflexivity |].
  all: eexists; split; [apply last_snoc |].
  all: unfold Company.findByCriteria_sql, Company.name_filter, Company.minEmployees_filter,
         Company.maxEmployees_filter.
  all: rewrite ?truthy_js_or; destruct (truthy name); split; vm_compute; reflexivity.
Qed.

Lemma C7_missing_row_is_NotFound_witness :
  Job.get (JNum 0) (start [])
  = (Throw (NotFoundError "No job with an id of 0"),
     {| db := []; trace := [(Job.get_sql, [JNum 0])] |})
  ∧ Job.update (JNum 0) [("title", JStr "new nope")] (start [])
    = (Throw (NotFoundError "No job with id: 0"),
       {| db := [];
          trace := [(Job.update_sql (set_clause "title" 1) "$2",
                     [JStr "new nope"; JNum 0])] |})
  ∧ Job.remove (JNum 0) (start [])
    = (Throw (NotFoundError "No job found"),
       {| db := []; trace := [(Job.remove_sql, [JNum 0])] |})
  ∧ Company.get (JStr "nope") (start [])
    = (Throw (NotFoundError "No company: nope"),
       {| db := []; trace := [(Company.get_sql, [JStr "nope"])] |})
  ∧ Company.update (JStr "nope") [("name", JStr "New")] (start [])
    = (Throw (NotFoundError "No company: nope"),
       {| db := [];
          trace := [(Company.update_sql (set_clause "name" 1) "$2",
                     [JStr "New"; JStr "nope"])] |})
  ∧ Company.remove (JStr "nope") (start [])
    = (Throw (NotFoundError "No company: nope"),
       {| db := []; trace := [(Company.remove_sql, [JStr "nope"])] |}).
Proof.
  destruct (C7_missing_row_is_NotFound (D := Script) (JNum 0) [] [] [])
    as (Hget & Hupd & Hrem & _).
  destruct (C7_missing_row_is_NotFound (D := Script) (JStr "nope") [] [] [])
    as (_ & _ & _ & Hcget & Hcupd & Hcrem).
  split; [apply Hget; reflexivity |].
  split; [apply (Hupd [("title", JStr "new nope")]
                   {| setCols := set_clause "title" 1; values := [JStr "new nope"] |});
          vm_compute; reflexivity |].
  split; [apply Hrem; reflexivity |].
  split; [apply Hcget; reflexivity |].
  split; [apply (Hcupd [("name", JStr "New")]
                   {| setCols := set_clause "name" 1; values := [JStr "New"] |});
          vm_compute; reflexivity |].
  apply Hcrem; reflexivity.
Defined.


Lemma C10_unrecognised_hasEquity_ignored_witness :
  Job.findByCriteria_sql (JStr "J") (JNum 90000) (JStr "yes")
  = Job.findByCriteria_sql (JStr "J") (JNum 90000) JUndefined
  ∧ Job.findByCriteria (JStr "J") (JNum 90000) (JStr "yes") (start [])
    = Job.findByCriteria (JStr "J") (JNum 90000) JUndefined (start [])
  ∧ ∀ res d',
      db_query (Job.findByCriteria_sql (JStr "J") (JNum 90000) JUndefined).1
               (Job.findByCriteria_sql (JStr "J") (JNum 90000) JUndefined).2
               (db (start []))
      = (Return res, d') →
      Job.findByCriteria (JStr "J") (JNum 90000) (JStr "yes") (start [])
      = (Return (rows res),
         {| db := d';
            trace := trace (start [])
                     ++ [Job.findByCriteria_sql (JStr "J") (JNum 90000) JUndefined] |}).
Proof.
  apply (C10_unrecognised_hasEquity_ignored (JStr "J") (JNum 90000) (JStr "yes") (start []));
    discriminate.
Defined.

(** * Further properties of the code *)

(** ** Placeholders of joined SET clauses *)

(** X1.  When no column name holds a dollar sign, the placeholders read out
    of the [setCols] that [sqlForPartialUpdate] returns are [$1 .. $n], in
    this order, for the [n] values it returns. *)
Theorem X1_setCols_placeholders (dataToUpdate : JsObject) (jsToSql : gmap string JsVal)
    (su : PartialUpdate) :
  sqlForPartialUpdate dataToUpdate jsToSql = Return su →
  Forall (λ k, includes "$" (column jsToSql k) = false) dataToUpdate.*1 →
  placeholders (setCols su) = seq 1 (length (values su)).
Proof.
  intros Hsu Hkeys.
  destruct (decide (dataToUpdate = [])) as [-> | Hne]; [discriminate Hsu |].
  rewrite (sqlForPartialUpdate_nonempty _ _ Hne) in Hsu.
  assert (su = {| setCols := join ", " (set_clauses dataToUpdate jsToSql);
                  values := dataToUpdate.*2 |}) as -> by congruence.
  cbn [setCols values].
  rewrite <- (string_app_nil_r (join _ _)).
  rewrite set_clauses_placeholders by (assumption || reflexivity).
  rewrite length_fmap, app_nil_r. reflexivity.
Qed.

Lemma X1_setCols_placeholders_witness :
  placeholders (dquote +:+ "first_name" +:+ dquote +:+ "=$1, "
                +:+ dquote +:+ "age" +:+ dquote +:+ "=$2")
  = [1; 2].
Proof.
  apply (X1_setCols_placeholders
           [("firstName", JStr "Aliya"); ("age", JNum 32)]
           {["firstName" := JStr "first_name"]}
           {| setCols := dquote +:+ "first_name" +:+ dquote +:+ "=$1, "
                         +:+ dquote +:+ "age" +:+ dquote +:+ "=$2";
              values := [JStr "Aliya"; JNum 32] |}).
  - vm_compute. reflexivity.
  - repeat constructor.
Defined.

(** A key with a dollar sign in it does show up among the placeholders. *)
Example dollar_in_a_key :
  placeholders (set_clause "a$5" 1) = [5; 1].
Proof. vm_compute. reflexivity. Qed.

(** X2.  The SET clause is written from the keys alone: two mappings with
    the same keys in the same order give the same [setCols] (or are both
    rejected), whatever their values; the values only travel in the bind
    list. *)
Theorem X2_setCols_ignores_values (data data' : JsObject) (jsToSql : gmap string JsVal) :
  data.*1 = data'.*1 →
  result_map setCols (sqlForPartialUpdate data jsToSql)
  = result_map setCols (sqlForPartialUpdate data' jsToSql).
Proof.
  intros Hkeys.
  destruct (decide (data = [])) as [-> | Hne].
  - destruct data'; [reflexivity | discriminate Hkeys].
  - assert (data' ≠ []) as Hne' by (intros ->; destruct data; [done | discriminate Hkeys]).
    rewrite !sqlForPartialUpdate_nonempty by assumption. simpl.
    unfold set_clauses, Object_keys. rewrite Hkeys. reflexivity.
Qed.

Lemma X2_setCols_ignores_values_witness :
  result_map setCols
    (sqlForPartialUpdate [("name", JStr "New"); ("numEmployees", JNum 10)]
       {["numEmployees" := JStr "num_employees"; "logoUrl" := JStr "logo_url"]})
  = result_map setCols
      (sqlForPartialUpdate [("name", JStr "x'; DROP TABLE companies; --");
                            ("numEmployees", JNull)]
         {["numEmployees" := JStr "num_employees"; "logoUrl" := JStr "logo_url"]}).
Proof.
  apply (X2_setCols_ignores_values
           [("name", JStr "New"); ("numEmployees", JNum 10)]
           [("name", JStr "x'; DROP TABLE companies; --"); ("numEmployees", JNull)]).
  reflexivity.
Defined.

(** X3.  Only the table entries of the keys being updated matter: two
    translation tables that agree on every key of the mapping give the same
    result. *)
Theorem X3_sqlForPartialUpdate_table_frame
    (data : JsObject) (jsToSql jsToSql' : gmap string JsVal) :
  (∀ key, key ∈ data.*1 → jsToSql !! key = jsToSql' !! key) →
  sqlForPartialUpdate data jsToSql = sqlForPartialUpdate data jsToSql'.
Proof.
  intros Hagree.
  destruct (decide (data = [])) as [-> | Hne]; [reflexivity |].
  rewrite !sqlForPartialUpdate_nonempty by assumption. do 3 f_equal.
  apply imap_ext. intros i k Hi. simpl.
  unfold column, translation. rewrite Hagree; [reflexivity |].
  apply list_elem_of_lookup. eauto.
Qed.

Lemma X3_sqlForPartialUpdate_table_frame_witness :
  sqlForPartialUpdate [("name", JStr "New")]
    {["numEmployees" := JStr "num_employees"; "logoUrl" := JStr "logo_url"]}
  = sqlForPartialUpdate [("name", JStr "New")] ∅.
Proof.
  apply (X3_sqlForPartialUpdate_table_frame [("name", JStr "New")]).
  intros key Hkey. apply list_elem_of_singleton in Hkey as ->. reflexivity.
Defined.

(** ** The UPDATE statements *)

Lemma job_table_dollar_free (k : string) (v : JsVal) :
  ({["companyHandle" := JStr "company_handle"]} : gmap string JsVal) !! k = Some v →
  includes "$" (ToString v) = false.
Proof. intros [_ <-]%lookup_singleton_Some. reflexivity. Qed.

Lemma company_table_dollar_free (k : string) (v : JsVal) :
  ({["numEmployees" := JStr "num_employees"; "logoUrl" := JStr "logo_url"]}
     : gmap string JsVal) !! k = Some v →
  includes "$" (ToString v) = false.
Proof.
  intros [[_ <-] | [_ [_ <-]%lookup_singleton_Some]]%lookup_insert_Some; reflexivity.
Qed.

Ltac concrete_tail :=
  match goal with
  | |- context [placeholders ?t] =>
      replace (placeholders t) with (@nil nat) by (vm_compute; reflexivity)
  end.

Lemma job_update_sql_placeholders (dataToUpdate : JsObject) (jsToSql : gmap string JsVal) :
  Forall (λ k, includes "$" (column jsToSql k) = false) dataToUpdate.*1 →
  placeholders (Job.update_sql (join ", " (set_clauses dataToUpdate jsToSql))
                  ("$" +:+ pretty (length (dataToUpdate.*2) + 1)))
  = seq 1 (length dataToUpdate + 1).
Proof.
  intros Hkeys. unfold Job.update_sql, lines. cbn [String.concat].
  rewrite !string_app_assoc.
  rewrite (placeholders_skip "UPDATE jobs ") by reflexivity.
  rewrite (placeholders_skip nl) by reflexivity.
  rewrite (placeholders_skip "                      SET ") by reflexivity.
  rewrite set_clauses_placeholders by (assumption || reflexivity).
  rewrite (placeholders_skip " ") by reflexivity.
  rewrite (placeholders_skip nl) by reflexivity.
  rewrite (placeholders_skip "                      WHERE id = ") by reflexivity.
  rewrite placeholders_dollar_pretty_then by reflexivity.
  concrete_tail.
  rewrite length_fmap, seq_app. simpl. do 2 f_equal. lia.
Qed.

Lemma company_update_sql_placeholders (dataToUpdate : JsObject)
    (jsToSql : gmap string JsVal) :
  Forall (λ k, includes "$" (column jsToSql k) = false) dataToUpdate.*1 →
  placeholders (Company.update_sql (join ", " (set_clauses dataToUpdate jsToSql))
                  ("$" +:+ pretty (length (dataToUpdate.*2) + 1)))
  = seq 1 (length dataToUpdate + 1).
Proof.
  intros Hkeys. unfold Company.update_sql, lines. cbn [String.concat].
  rewrite !string_app_assoc.
  rewrite (placeholders_skip "UPDATE companies ") by reflexivity.
  rewrite (placeholders_skip nl) by reflexivity.
  rewrite (placeholders_skip "                      SET ") by reflexivity.
  rewrite set_clauses_placeholders by (assumption || reflexivity).
  rewrite (placeholders_skip " ") by reflexivity.
  rewrite (placeholders_skip nl) by reflexivity.
  rewrite (placeholders_skip "                      WHERE handle = ") by reflexivity.
  rewrite placeholders_dollar_pretty_then by reflexivity.
  concrete_tail.
  rewrite length_fmap, seq_app. simpl. do 2 f_equal. lia.
Qed.

(** ** What the methods do with the database's answer *)

Section Runs.
Context `{Database D}.

Lemma query_bind {A} (sql : string) (vals : list JsVal) (k : QueryResult → Async D A)
    (w : World D) :
  bind (query sql vals) k w
  = match db_query sql vals (db w) with
    | (Return res, d') => k res {| db := d'; trace := trace w ++ [(sql, vals)] |}
    | (Throw e, d') => (Throw e, {| db := d'; trace := trace w ++ [(sql, vals)] |})
    end.
Proof.
  unfold bind, query. destruct (db_query sql vals (db w)) as [[res | e] d']; reflexivity.
Qed.

Lemma query_bind_outcome {A} (sql : string) (vals : list JsVal)
    (k : QueryResult → Async D A) (w : World D) :
  (bind (query sql vals) k w).1
  = match answer sql vals w with
    | Return res =>
        (k res {| db := (db_query sql vals (db w)).2;
                  trace := trace w ++ [(sql, vals)] |}).1
    | Throw e => Throw e
    end.
Proof.
  rewrite query_bind. unfold answer.
  destruct (db_query sql vals (db w)) as [[res | e] d']; reflexivity.
Qed.

Lemma first_row_None (res : QueryResult) : rows res !! 0 = None ↔ rows res = [].
Proof. destruct (rows res); split; (discriminate || reflexivity). Qed.
End Runs.

Ltac one_call :=
  eexists [_]; split; [| reflexivity];
  rewrite query_bind;
  match goal with
  | |- context [db_query ?s ?v ?d] => destruct (db_query s v d) as [[? | ?] ?]
  end; simpl; [| reflexivity];
  try match goal with
      | |- context [rows ?r !! 0] => destruct (rows r !! 0)
      end; reflexivity.

Ltac outcome :=
  rewrite query_bind_outcome;
  match goal with
  | |- context [answer ?s ?v ?w] => destruct (answer s v w) as [res | e0]
  end; simpl.

Ltac first_row :=
  match goal with
  | |- context [rows ?r !! 0] =>
      let Hrow := fresh "Hrow" in
      destruct (rows r !! 0) as [? |] eqn:Hrow; simpl
  end.

Section Methods.
Context `{Database D}.

(** X4.  For a non-empty mapping whose keys hold no dollar sign,
    [Job.update] and [Company.update] send one statement whose
    placeholders are [$1 .. $(n+1)] for its [n+1] bind values: the [n]
    new values in the mapping's order, then the id or handle, last, for
    the WHERE clause. *)
Theorem X4_update_call_placeholders (key : JsVal) (data : JsObject) (w : World D) :
  data ≠ [] → Forall (λ k, includes "$" k = false) data.*1 →
  (∃ sql, trace (Job.update key data w).2 = trace w ++ [(sql, data.*2 ++ [key])]
          ∧ placeholders sql = seq 1 (length (data.*2 ++ [key])))
  ∧ (∃ sql, trace (Company.update key data w).2 = trace w ++ [(sql, data.*2 ++ [key])]
            ∧ placeholders sql = seq 1 (length (data.*2 ++ [key]))).
Proof.
  intros Hne Hkeys. split.
  - eexists. split.
    + unfold Job.update, bind at 1, lift.
      rewrite (sqlForPartialUpdate_nonempty _ _ Hne). cbn [setCols values].
      rewrite query_bind.
      destruct (db_query _ _ (db w)) as [[res | e] d']; [| reflexivity].
      destruct (rows res !! 0); reflexivity.
    + rewrite job_update_sql_placeholders
        by (apply keys_dollar_free; [apply job_table_dollar_free | exact Hkeys]).
      rewrite length_app, length_fmap. reflexivity.
  - eexists. split.
    + unfold Company.update, bind at 1, lift.
      rewrite (sqlForPartialUpdate_nonempty _ _ Hne). cbn [setCols values].
      rewrite query_bind.
      destruct (db_query _ _ (db w)) as [[res | e] d']; [| reflexivity].
      destruct (rows res !! 0); reflexivity.
    + rewrite company_update_sql_placeholders
        by (apply keys_dollar_free; [apply company_table_dollar_free | exact Hkeys]).
      rewrite length_app, length_fmap. reflexivity.
Qed.

(** X5.  [update] fails in exactly three ways: with [BadRequestError] when
    the mapping is empty, with the database's own error when the UPDATE
    fails, and with [NotFoundError] when the UPDATE comes back without a
    row.  In every other case it returns. *)
Theorem X5_update_errors (key : JsVal) (data : JsObject) (w : World D) (e : JsError) :
  (let sql := Job.update_sql
                (join ", " (set_clauses data {["companyHandle" := JStr "company_handle"]}))
                ("$" +:+ pretty (length (data.*2) + 1)) in
   (Job.update key data w).1 = Throw e
   ↔ (data = [] ∧ e = BadRequestError "No data")
     ∨ (data ≠ []
        ∧ (answer sql (data.*2 ++ [key]) w = Throw e
           ∨ (∃ res, answer sql (data.*2 ++ [key]) w = Return res ∧ rows res = []
                     ∧ e = NotFoundError ("No job with id: " +:+ ToString key)))))
  ∧ (let sql := Company.update_sql
                  (join ", " (set_clauses data
                                {["numEmployees" := JStr "num_employees";
                                  "logoUrl" := JStr "logo_url"]}))
                  ("$" +:+ pretty (length (data.*2) + 1)) in
     (Company.update key data w).1 = Throw e
     ↔ (data = [] ∧ e = BadRequestError "No data")
       ∨ (data ≠ []
          ∧ (answer sql (data.*2 ++ [key]) w = Throw e
             ∨ (∃ res, answer sql (data.*2 ++ [key]) w = Return res ∧ rows res = []
                       ∧ e = NotFoundError ("No company: " +:+ ToString key))))).
Proof.
  split; intros sql; subst sql.
  all: destruct (decide (data = [])) as [-> | Hne].
  1, 3: split;
    [ intros Hthrow; left; split; [reflexivity |];
      match type of Hthrow with
      | ?run = _ =>
          assert (run = Throw (BadRequestError "No data")) as Hrun by reflexivity
      end; congruence
    | intros [[_ ->] | [Hne _]]; [reflexivity | exfalso; apply Hne; reflexivity] ].
  all: unfold Job.update, Company.update, bind at 1, lift;
    rewrite (sqlForPartialUpdate_nonempty _ _ Hne); cbn [setCols values].
  all: outcome; [first_row |].
  all: split;
    [ intros Hthrow;
      first [ discriminate Hthrow
            | right; split; [exact Hne |];
              first [ left; congruence
                    | right; eexists; split; [reflexivity |];
                      split; [apply first_row_None; assumption | congruence] ] ]
    | intros [[Hempty _] | (_ & [Hdb | (res' & Hres & Hrows & ->)])];
      first [ contradiction
            | congruence
            | injection Hres as <-; apply first_row_None in Hrows; congruence ] ].
Qed.

(** X6.  [get] and [remove] fail in exactly two ways: with the database's
    own error, and with [NotFoundError] when the statement comes back
    without a row. *)
Theorem X6_lookup_errors (key : JsVal) (w : World D) (e : JsError) :
  ((Job.get key w).1 = Throw e
   ↔ answer Job.get_sql [key] w = Throw e
     ∨ (∃ res, answer Job.get_sql [key] w = Return res ∧ rows res = []
               ∧ e = NotFoundError ("No job with an id of " +:+ ToString key)))
  ∧ ((Job.remove key w).1 = Throw e
     ↔ answer Job.remove_sql [key] w = Throw e
       ∨ (∃ res, answer Job.remove_sql [key] w = Return res ∧ rows res = []
                 ∧ e = NotFoundError "No job found"))
  ∧ ((Company.get key w).1 = Throw e
     ↔ answer Company.get_sql [key] w = Throw e
       ∨ (∃ res, answer Company.get_sql [key] w = Return res ∧ rows res = []
                 ∧ e = NotFoundError ("No company: " +:+ ToString key)))
  ∧ ((Company.remove key w).1 = Throw e
     ↔ answer Company.remove_sql [key] w = Throw e
       ∨ (∃ res, answer Company.remove_sql [key] w = Return res ∧ rows res = []
                 ∧ e = NotFoundError ("No company: " +:+ ToString key))).
Proof.
  split; [| split; [| split]].
  all: unfold Job.get, Job.remove, Company.get, Company.remove.
  all: outcome; [first_row |].
  all: split;
    [ intros Hthrow;
      first [ discriminate Hthrow
            | left; congruence
            | right; eexists; split; [reflexivity |];
              split; [apply first_row_None; assumption | congruence] ]
    | intros [Hdb | (res' & Hres & Hrows & ->)];
      first [ congruence
            | injection Hres as <-; apply first_row_None in Hrows; congruence ] ].
Qed.

(** X7.  [get] and [Job.remove] return the first row of the answer, whatever
    follows it; [Company.remove] returns nothing, and returns whenever the
    answer has a row. *)
Theorem X7_first_row_returned (key : JsVal) (w : World D) (row : Row) :
  ((Job.get key w).1 = Return row
   ↔ ∃ res, answer Job.get_sql [key] w = Return res ∧ rows res !! 0 = Some row)
  ∧ ((Job.remove key w).1 = Return row
     ↔ ∃ res, answer Job.remove_sql [key] w = Return res ∧ rows res !! 0 = Some row)
  ∧ ((Company.get key w).1 = Return row
     ↔ ∃ res, answer Company.get_sql [key] w = Return res ∧ rows res !! 0 = Some row)
  ∧ ((Company.remove key w).1 = Return tt
     ↔ ∃ res, answer Company.remove_sql [key] w = Return res ∧ rows res ≠ []).
Proof.
  split; [| split; [| split]].
  all: unfold Job.get, Job.remove, Company.get, Company.remove.
  all: outcome; [first_row |].
  all: split;
    [ intros Hret;
      first [ discriminate Hret
            | eexists; split; [reflexivity |];
              first [ congruence
                    | intros Hrows; apply first_row_None in Hrows; congruence ] ]
    | intros (res' & Hres & Hrows);
      first [ discriminate Hres
            | injection Hres as <-;
              first [ congruence | reflexivity
                    | exfalso; apply Hrows, first_row_None; assumption ] ] ].
Qed.

(** X8.  The listing methods and [Job.create] raise no error of their own:
    they fail exactly when their one database call fails, and with that
    error.  An answer without rows is returned like any other; and
    [Job.create] checks for no duplicate. *)
Theorem X8_fails_only_when_database_fails (w : World D) (e : JsError) :
  ((Job.findAll w).1 = Throw e ↔ answer Job.findAll_sql [] w = Throw e)
  ∧ (∀ company_handle,
       (Job.findAllByCompany company_handle w).1 = Throw e
       ↔ answer Job.findAllByCompany_sql [company_handle] w = Throw e)
  ∧ (∀ title minSalary hasEquity,
       (Job.findByCriteria title minSalary hasEquity w).1 = Throw e
       ↔ answer (Job.findByCriteria_sql title minSalary hasEquity).1
                (Job.findByCriteria_sql title minSalary hasEquity).2 w = Throw e)
  ∧ (∀ title salary equity companyHandle,
       (Job.create title salary equity companyHandle w).1 = Throw e
       ↔ answer Job.create_sql [title; salary; equity; companyHandle] w = Throw e)
  ∧ ((Company.findAll w).1 = Throw e ↔ answer Company.findAll_sql [] w = Throw e).
Proof.
  split; [| split; [| split; [| split]]]; intros.
  - unfold Job.findAll. outcome; split; congruence.
  - unfold Job.findAllByCompany. outcome; split; congruence.
  - unfold Job.findByCriteria. outcome; split; congruence.
  - unfold Job.create. outcome; split; congruence.
  - unfold Company.findAll. outcome; split; congruence.
Qed.

(** X9.  How many statements a method sends, whatever the database does:
    one for every method, except that [update] of an empty mapping and
    [Company.findByCriteria] with an invalid range send none, and
    [Company.create] sends one or two.  The calls already in the trace
    stay. *)
Theorem X9_calls_per_method (w : World D) :
  (∀ key, calls_exactly (Job.get key) w 1)
  ∧ (∀ key, calls_exactly (Job.remove key) w 1)
  ∧ (∀ title salary equity companyHandle,
       calls_exactly (Job.create title salary equity companyHandle) w 1)
  ∧ calls_exactly Job.findAll w 1
  ∧ (∀ company_handle, calls_exactly (Job.findAllByCompany company_handle) w 1)
  ∧ (∀ title minSalary hasEquity,
       calls_exactly (Job.findByCriteria title minSalary hasEquity) w 1)
  ∧ (∀ key data,
       calls_exactly (Job.update key data) w (match data with [] => 0 | _ => 1 end))
  ∧ (∀ key, calls_exactly (Company.get key) w 1)
  ∧ (∀ key, calls_exactly (Company.remove key) w 1)
  ∧ calls_exactly Company.findAll w 1
  ∧ (∀ name minEmployees maxEmployees,
       calls_exactly (Company.findByCriteria name minEmployees maxEmployees) w
         (if Company.invalid_range minEmployees maxEmployees then 0 else 1))
  ∧ (∀ key data,
       calls_exactly (Company.update key data) w (match data with [] => 0 | _ => 1 end))
  ∧ (∀ handle name description numEmployees logoUrl,
       calls_exactly (Company.create handle name description numEmployees logoUrl) w 1
       ∨ calls_exactly (Company.create handle name description numEmployees logoUrl) w 2).
Proof.
  repeat split; intros; unfold calls_exactly.
  - unfold Job.get. one_call.
  - unfold Job.remove. one_call.
  - unfold Job.create. one_call.
  - unfold Job.findAll. one_call.
  - unfold Job.findAllByCompany. one_call.
  - unfold Job.findByCriteria. one_call.
  - destruct data as [| kv data].
    + exists []. rewrite app_nil_r. split; reflexivity.
    + unfold Job.update, bind at 1, lift.
      rewrite sqlForPartialUpdate_nonempty by discriminate. one_call.
  - unfold Company.get. one_call.
  - unfold Company.remove. one_call.
  - unfold Company.findAll. one_call.
  - unfold Company.findByCriteria.
    destruct (Company.invalid_range minEmployees maxEmployees).
    + exists []. rewrite app_nil_r. split; reflexivity.
    + one_call.
  - destruct data as [| kv data].
    + exists []. rewrite app_nil_r. split; reflexivity.
    + unfold Company.update, bind at 1, lift.
      rewrite sqlForPartialUpdate_nonempty by discriminate. one_call.
  - unfold Company.create. rewrite query_bind.
    destruct (db_query _ _ (db w)) as [[res | e] d'].
    + destruct (rows res !! 0).
      * left. eexists [_]. split; reflexivity.
      * right. rewrite query_bind. simpl.
        destruct (db_query _ _ d') as [[res' | e'] d'']; simpl;
          eexists [_; _]; rewrite <- app_assoc; split; reflexivity.
    + left. eexists [_]. split; reflexivity.
Qed.
End Methods.

Section Companies.
Context `{Database D}.

(** X10.  [Company.create] fails in exactly three ways: with the
    database's error when the duplicate check fails, with
    [BadRequestError] when the check finds a row, and with the database's
    error when the INSERT that follows an empty check fails. *)
Theorem X10_company_create_errors
    (handle name description numEmployees logoUrl : JsVal) (w : World D) (e : JsError) :
  (Company.create handle name description numEmployees logoUrl w).1 = Throw e
  ↔ answer Company.duplicateCheck_sql [handle] w = Throw e
    ∨ (∃ res, answer Company.duplicateCheck_sql [handle] w = Return res
              ∧ rows res ≠ []
              ∧ e = BadRequestError ("Duplicate company: " +:+ ToString handle))
    ∨ (∃ res, answer Company.duplicateCheck_sql [handle] w = Return res
              ∧ rows res = []
              ∧ answer Company.insert_sql
                       [handle; name; description; numEmployees; logoUrl]
                       (query Company.duplicateCheck_sql [handle] w).2 = Throw e).
Proof.
  unfold Company.create. rewrite query_bind_outcome.
  assert ((query Company.duplicateCheck_sql [handle] w).2
          = {| db := (db_query Company.duplicateCheck_sql [handle] (db w)).2;
               trace := trace w ++ [(Company.duplicateCheck_sql, [handle])] |}) as ->.
  { unfold query. destruct (db_query _ _ (db w)). reflexivity. }
  destruct (answer Company.duplicateCheck_sql [handle] w) as [res | e0]; simpl.
  - destruct (rows res !! 0) as [found |] eqn:Hrow; simpl.
    + split.
      * intros Hthrow. right. left. exists res. split; [reflexivity |].
        split; [| congruence]. intros Hrows%first_row_None. congruence.
      * intros [Hdb | [(res' & Hres & Hrows & ->) | (res' & Hres & Hrows & _)]].
        -- discriminate Hdb.
        -- reflexivity.
        -- injection Hres as <-. apply first_row_None in Hrows. congruence.
    + rewrite query_bind_outcome.
      destruct (answer Company.insert_sql _ _) as [res2 | e2] eqn:Hins; simpl.
      * split; [discriminate |].
        intros [Hdb | [(res' & Hres & Hrows & _) | (res' & _ & _ & Hthrow)]].
        -- discriminate Hdb.
        -- injection Hres as <-. exfalso. apply Hrows, first_row_None, Hrow.
        -- discriminate Hthrow.
      * split.
        -- intros Hthrow. right. right. exists res. split; [reflexivity |].
           split; [apply first_row_None, Hrow | congruence].
        -- intros [Hdb | [(res' & Hres & Hrows & _) | (res' & _ & _ & Hthrow)]].
           ++ discriminate Hdb.
           ++ injection Hres as <-. exfalso. apply Hrows, first_row_None, Hrow.
           ++ congruence.
  - split; [intros Hthrow; left; congruence |].
    intros [Hdb | [(res' & Hres & _) | (res' & Hres & _)]];
      [congruence | discriminate Hres | discriminate Hres].
Qed.

(** X11.  [Company.findByCriteria] fails in exactly two ways: with
    [BadRequestError] when the range check trips, and otherwise with the
    database's own error. *)
Theorem X11_company_findByCriteria_errors (name minEmployees maxEmployees : JsVal)
    (w : World D) (e : JsError) :
  (Company.findByCriteria name minEmployees maxEmployees w).1 = Throw e
  ↔ (Company.invalid_range minEmployees maxEmployees = true
     ∧ e = BadRequestError "minEmployees cannot be greater than maxEmployees")
    ∨ (Company.invalid_range minEmployees maxEmployees = false
       ∧ answer (Company.findByCriteria_sql name minEmployees maxEmployees).1
                (Company.findByCriteria_sql name minEmployees maxEmployees).2 w
         = Throw e).
Proof.
  unfold Company.findByCriteria.
  destruct (Company.invalid_range minEmployees maxEmployees); simpl.
  - split.
    + intros Hthrow. left. split; [reflexivity | congruence].
    + intros [[_ ->] | [Hno _]]; [reflexivity | discriminate Hno].
  - outcome.
    + split; [discriminate |]. intros [[Hyes _] | [_ Hdb]]; discriminate.
    + split.
      * intros Hthrow. right. split; [reflexivity | congruence].
      * intros [[Hyes _] | [_ Hdb]]; [discriminate Hyes | congruence].
Qed.
End Companies.

(** X12.  On two numbers the range check trips exactly when both are
    non-zero and the minimum is greater than the maximum; equal bounds
    pass. *)
Theorem X12_range_check_numbers (minEmployees maxEmployees : Z) :
  (Company.invalid_range (JNum minEmployees) (JNum maxEmployees) = true
   ↔ minEmployees ≠ 0%Z ∧ maxEmployees ≠ 0%Z ∧ (maxEmployees < minEmployees)%Z)
  ∧ Company.invalid_range (JNum minEmployees) (JNum minEmployees) = false.
Proof.
  unfold Company.invalid_range. rewrite !truthy_js_and. simpl.
  unfold js_gt, js_lt. simpl. split.
  - rewrite !andb_true_iff, !negb_true_iff, !Z.eqb_neq, Z.ltb_lt. tauto.
  - rewrite Z.ltb_irrefl, andb_false_r. reflexivity.
Qed.

(** ** The text of the filter statements *)

Lemma hasEquity_filter_flag (title minSalary hasEquity : JsVal) (st : Stmt) :
  Job.hasEquity_filter title minSalary hasEquity st
  = match equity_flag hasEquity with
    | EquityPositive =>
        (st.1 +:+ lines [""; "        " +:+ (if truthy title || truthy minSalary
                                              then "AND" else "WHERE") +:+ " equity > 0"],
         st.2)
    | EquityZero =>
        (st.1 +:+ lines [""; "        " +:+ (if truthy title || truthy minSalary
                                              then "AND" else "WHERE") +:+ " equity = 0"],
         st.2)
    | EquityAbsent => st
    end.
Proof.
  unfold Job.hasEquity_filter. destruct st as [q vs].
  rewrite equity_flag_code, truthy_js_or.
  destruct (js_strict_eq hasEquity (JStr "true") || js_strict_eq hasEquity (JBool true));
    [reflexivity |].
  destruct (js_strict_eq hasEquity (JStr "false") || js_strict_eq hasEquity (JBool false));
    reflexivity.
Qed.

(** X13.  The text of a filter statement depends only on which filters are
    provided, never on their values: inputs that agree on the truthiness of
    each filter (and, for jobs, on the reading of the equity flag) give the
    same SQL text.  What the caller typed travels in the bind values
    only. *)
Theorem X13_filter_text_ignores_values :
  (∀ title title' minSalary minSalary' hasEquity hasEquity',
     truthy title = truthy title' → truthy minSalary = truthy minSalary' →
     equity_flag hasEquity = equity_flag hasEquity' →
     (Job.findByCriteria_sql title minSalary hasEquity).1
     = (Job.findByCriteria_sql title' minSalary' hasEquity').1)
  ∧ (∀ name name' minEmployees minEmployees' maxEmployees maxEmployees',
       truthy name = truthy name' → truthy minEmployees = truthy minEmployees' →
       truthy maxEmployees = truthy maxEmployees' →
       (Company.findByCriteria_sql name minEmployees maxEmployees).1
       = (Company.findByCriteria_sql name' minEmployees' maxEmployees').1).
Proof.
  split.
  - intros t t' m m' h h' Ht Hm Hh.
    unfold Job.findByCriteria_sql. rewrite !hasEquity_filter_flag, Hh, Ht, Hm.
    unfold Job.title_filter, Job.minSalary_filter. rewrite Ht, Hm.
    destruct (truthy t'), (truthy m'), (equity_flag h'); reflexivity.
  - intros n n' mn mn' mx mx' Hn Hmn Hmx.
    unfold Company.findByCriteria_sql, Company.name_filter, Company.minEmployees_filter,
      Company.maxEmployees_filter.
    rewrite !truthy_js_or, Hn, Hmn, Hmx.
    destruct (truthy n'), (truthy mn'), (truthy mx'); reflexivity.
Qed.

Lemma X13_filter_text_ignores_values_witness :
  (Job.findByCriteria_sql (JStr "J") (JNum 90000) (JBool true)).1
  = (Job.findByCriteria_sql (JStr "%'; DROP TABLE jobs; --") (JStr "1 OR 1=1") (JStr "true")).1
  ∧ (Company.findByCriteria_sql (JStr "net") (JNum 2) JUndefined).1
    = (Company.findByCriteria_sql (JStr "' OR ''='") (JStr "2; --") (JNum 0)).1.
Proof.
  destruct X13_filter_text_ignores_values as [Hjob Hcompany].
  split; [apply Hjob | apply Hcompany]; reflexivity.
Defined.

(** X14.  When no filter is provided (falsy title and minimum, an equity
    flag that is not one of the four readings; falsy name and bounds) the
    statement is the base SELECT followed by ORDER BY, without WHERE or AND,
    and there is no bind value. *)
Theorem X14_no_filters_no_where :
  (∀ title minSalary hasEquity,
     truthy title = false → truthy minSalary = false →
     equity_flag hasEquity = EquityAbsent →
     Job.findByCriteria_sql title minSalary hasEquity = (Job.base +:+ Job.order_by, [])
     ∧ keywords (Job.base +:+ Job.order_by) = [])
  ∧ (∀ name minEmployees maxEmployees,
       truthy name = false → truthy minEmployees = false → truthy maxEmployees = false →
       Company.findByCriteria_sql name minEmployees maxEmployees
       = (Company.base +:+ Company.order_by, [])
       ∧ keywords (Company.base +:+ Company.order_by) = []).
Proof.
  split.
  - intros t m h Ht Hm Hh. split; [| reflexivity].
    unfold Job.findByCriteria_sql. rewrite hasEquity_filter_flag, Hh.
    unfold Job.title_filter, Job.minSalary_filter. rewrite Ht, Hm. reflexivity.
  - intros n mn mx Hn Hmn Hmx. split; [| reflexivity].
    unfold Company.findByCriteria_sql, Company.name_filter, Company.minEmployees_filter,
      Company.maxEmployees_filter.
    rewrite Hn, Hmn, Hmx. reflexivity.
Qed.

Lemma X14_no_filters_no_where_witness :
  (Job.findByCriteria_sql (JStr "") (JNum 0) JNull = (Job.base +:+ Job.order_by, [])
   ∧ keywords (Job.base +:+ Job.order_by) = [])
  ∧ (Company.findByCriteria_sql JUndefined (JNum 0) (JStr "")
     = (Company.base +:+ Company.order_by, [])
     ∧ keywords (Company.base +:+ Company.order_by) = []).
Proof.
  destruct X14_no_filters_no_where as [Hjob Hcompany].
  split; [apply Hjob | apply Hcompany]; reflexivity.
Defined.

Lemma X4_update_call_placeholders_witness :
  (∃ sql, trace (Job.update (JNum 1) [("title", JStr "New"); ("salary", JNum 5)]
                   (start [])).2
          = trace (start []) ++ [(sql, [JStr "New"; JNum 5; JNum 1])]
          ∧ placeholders sql = [1; 2; 3])
  ∧ (∃ sql, trace (Company.update (JStr "c1") [("title", JStr "New"); ("salary", JNum 5)]
                     (start [])).2
            = trace (start []) ++ [(sql, [JStr "New"; JNum 5; JStr "c1"])]
            ∧ placeholders sql = [1; 2; 3]).
Proof.
  destruct (X4_update_call_placeholders (D := Script) (JNum 1)
              [("title", JStr "New"); ("salary", JNum 5)] (start []))
    as [Hjob _]; [discriminate | repeat constructor |].
  destruct (X4_update_call_placeholders (D := Script) (JStr "c1")
              [("title", JStr "New"); ("salary", JNum 5)] (start []))
    as [_ Hcompany]; [discriminate | repeat constructor |].
  split; [exact Hjob | exact Hcompany].
Defined.

(** ** routes/users.js: the handlers *)

Import UsersRoutes.

Lemma isAdmin_or_self_spec (user : LocalsUser) (params_username : string) :
  isAdmin_or_self user params_username = true
  ↔ truthy (isAdmin user) = true ∨ username user = JStr params_username.
Proof.
  unfold isAdmin_or_self. rewrite truthy_js_or, orb_true_iff. simpl.
  split; (intros [Hadmin | Hself]; [left; exact Hadmin | right]).
  - destruct (username user) as [| | | | | s]; try discriminate Hself.
    simpl in Hself. apply String.eqb_eq in Hself. congruence.
  - rewrite Hself. simpl. apply String.eqb_refl.
Qed.

Section Handlers.
Context `{Collaborators U}.

Lemma await_run {A} (call : UserCall) (f : U → Outcome A * U) (s : State U) :
  await call f s = ((f (model s)).1,
                    {| model := (f (model s)).2; calls := calls s ++ [call] |}).
Proof. unfold await. destruct (f (model s)). reflexivity. Qed.

(** X15.  The caller passes the check of the four [/:username] routes
    exactly when its [isAdmin] is truthy or its username is the one in the
    URL.  A caller who does not pass never reaches the [User] model (the
    state, with its record of model calls, is unchanged) and is answered
    401 with the route's message by GET and DELETE, and by PATCH once the
    body has passed validation, and 403 by the apply route. *)
Theorem X15_authorization_gate (user : LocalsUser) (params_username : string)
    (s : State U) :
  (isAdmin_or_self user params_username = true
   ↔ truthy (isAdmin user) = true ∨ username user = JStr params_username)
  ∧ (isAdmin_or_self user params_username = false →
     get_username user params_username s
     = (Json 401 (Error "You are not authorized to view this profile"), s)
     ∧ delete_username user params_username s
       = (Json 401 (Error "You are not authorized to delete this profile"), s)
     ∧ (∀ params_id,
          post_username_jobs_id user params_username params_id s
          = (Json 403 (Error "Unauthorized to apply for this job"), s))
     ∧ (∀ body, valid (jsonschema_validate body userUpdateSchema) = true →
          patch_username user params_username body s
          = (Json 401 (Error "You are not authorized to edit this profile"), s))).
Proof.
  split; [apply isAdmin_or_self_spec |]. intros Hno.
  unfold get_username, delete_username, post_username_jobs_id, patch_username.
  rewrite Hno. repeat split.
  intros body Hvalid. unfold try_catch, and_then, validate. rewrite Hvalid. reflexivity.
Qed.

(** X16.  Validation comes first: a body that fails its schema makes PATCH
    [/:username] and POST [/] hand the list of validation messages to
    [next] as a bad request, without any call to the [User] model; PATCH
    does so before it looks at who is calling. *)
Theorem X16_validation_comes_first (user : LocalsUser) (params_username : string)
    (body : JsObject) (s : State U) :
  (valid (jsonschema_validate body userUpdateSchema) = false →
   patch_username user params_username body s
   = (Next (ValidationErrors (errors (jsonschema_validate body userUpdateSchema))), s))
  ∧ (valid (jsonschema_validate body userNewSchema) = false →
     post_root body s
     = (Next (ValidationErrors (errors (jsonschema_validate body userNewSchema))), s)).
Proof.
  split; intros Hinvalid.
  - unfold patch_username, try_catch, and_then, validate. rewrite Hinvalid. reflexivity.
  - unfold post_root, try_catch, and_then, validate. rewrite Hinvalid. reflexivity.
Qed.

(** X17.  A caller who passes the check makes exactly one call to the
    [User] model, and it is for the user named in the URL, not for the
    caller: an admin acts on the account the path names. *)
Theorem X17_acts_on_the_named_user (user : LocalsUser) (params_username : string)
    (s : State U) :
  isAdmin_or_self user params_username = true →
  calls (get_username user params_username s).2 = calls s ++ [CallGet params_username]
  ∧ calls (delete_username user params_username s).2
    = calls s ++ [CallRemove params_username]
  ∧ (∀ params_id,
       calls (post_username_jobs_id user params_username params_id s).2
       = calls s ++ [CallApply params_username params_id])
  ∧ (∀ body, valid (jsonschema_validate body userUpdateSchema) = true →
       calls (patch_username user params_username body s).2
       = calls s ++ [CallUpdate params_username body]).
Proof.
  intros Hyes.
  unfold get_username, delete_username, post_username_jobs_id, patch_username.
  rewrite Hyes. unfold try_catch, and_then. repeat split; intros.
  - rewrite await_run. destruct (User_get _ _) as [[found | err] u]; reflexivity.
  - rewrite await_run. destruct (User_remove _ _) as [[[] | err] u]; reflexivity.
  - rewrite await_run. destruct (User_apply _ _ _) as [[[details |] | err] u]; reflexivity.
  - unfold validate.
    match goal with Hvalid : valid _ = true |- _ => rewrite Hvalid end.
    simpl. rewrite await_run.
    destruct (User_update _ _ _) as [[updated | err] u]; reflexivity.
Qed.

End Handlers.

(** The jobs-route test of the repository, at the level of the statement:
    [GET /jobs?title=J&minSalary=90000&hasEquity=true] arrives with string
    values. *)
Example jobs_query_string :
  Job.findByCriteria_sql (JStr "J") (JStr "90000") (JStr "true")
  = (Job.base +:+ nl +:+ "        WHERE title ILIKE $1"
              +:+ nl +:+ "        AND salary >= $2"
              +:+ nl +:+ "        AND equity > 0" +:+ Job.order_by,
     [JStr "%J%"; JStr "90000"]).
Proof. vm_compute. reflexivity. Qed.

Lemma X15_authorization_gate_witness :
  get_username u1 "u2" two_users
  = (Json 401 (Error "You are not authorized to view this profile"), two_users)
  ∧ delete_username u1 "u2" two_users
    = (Json 401 (Error "You are not authorized to delete this profile"), two_users)
  ∧ (∀ params_id,
       post_username_jobs_id u1 "u2" params_id two_users
       = (Json 403 (Error "Unauthorized to apply for this job"), two_users))
  ∧ (∀ body, valid (@jsonschema_validate _ memory_model body userUpdateSchema) = true →
       patch_username u1 "u2" body two_users
       = (Json 401 (Error "You are not authorized to edit this profile"), two_users)).
Proof.
  apply (proj2 (@X15_authorization_gate _ memory_model u1 "u2" two_users)). reflexivity.
Defined.

Lemma X16_validation_comes_first_witness :
  patch_username u1 "u2" [] two_users
  = (Next (ValidationErrors ["instance is empty"]), two_users)
  ∧ post_root [] two_users = (Next (ValidationErrors ["instance is empty"]), two_users).
Proof.
  destruct (@X16_validation_comes_first _ memory_model u1 "u2" [] two_users)
    as [Hpatch Hpost].
  split; [apply Hpatch | apply Hpost]; reflexivity.
Defined.

Lemma X17_acts_on_the_named_user_witness :
  calls (get_username admin "u1" two_users).2 = [CallGet "u1"]
  ∧ calls (delete_username admin "u1" two_users).2 = [CallRemove "u1"]
  ∧ (∀ params_id,
       calls (post_username_jobs_id admin "u1" params_id two_users).2
       = [CallApply "u1" params_id])
  ∧ (∀ body, valid (@jsonschema_validate _ memory_model body userUpdateSchema) = true →
       calls (patch_username admin "u1" body two_users).2 = [CallUpdate "u1" body]).
Proof.
  apply (@X17_acts_on_the_named_user _ memory_model admin "u1" two_users). reflexivity.
Defined.

